(** * The bindings option generator (pkg/bindings/generator/generator.go)

    A shallow embedding of the generator program: the Go library functions it
    calls (utf8, unicode, strings, text/template, go/ast), the template
    [bodyTmpl], the function [fmtComment] and the program [main], followed by
    the properties of the generator stated in its specification. *)

From Stdlib Require Import ZArith Ascii String List Bool Lia.
From stdpp Require Import base option gmap strings.

Import ListNotations.
Set Warnings "-register-all".
Local Open Scope string_scope.
Local Open Scope Z_scope.

(** ** Go strings and byte slices

    A Go [string] and a [[]byte] are sequences of bytes: Rocq's [string]. *)

Definition byte_val (c : ascii) : Z := Z.of_N (N_of_ascii c).
Definition byte_of (z : Z) : ascii := ascii_of_N (Z.to_N z).

Definition len (s : string) : Z := Z.of_nat (String.length s).

Fixpoint drop_bytes (n : nat) (s : string) : string :=
  match n, s with
  | O, _ => s
  | S n', String _ t => drop_bytes n' t
  | S _, EmptyString => EmptyString
  end.

Fixpoint take_bytes (n : nat) (s : string) : string :=
  match n, s with
  | S n', String c t => String c (take_bytes n' t)
  | _, _ => EmptyString
  end.

(** [s[i:j]] for [0 <= i <= j <= len s] (the caller checks the range). *)
Definition slice (s : string) (i j : Z) : string :=
  take_bytes (Z.to_nat (j - i)) (drop_bytes (Z.to_nat i) s).

(** [s[i]], 0 when out of range (the callers below stay in range). *)
Definition byte_at (s : string) (i : Z) : Z :=
  match drop_bytes (Z.to_nat i) s with
  | String c _ => byte_val c
  | EmptyString => 0
  end.

Fixpoint rev_bytes (s acc : string) : string :=
  match s with
  | EmptyString => acc
  | String c t => rev_bytes t (String c acc)
  end.

(** The concatenation of byte strings. *)
Definition join (l : list string) : string :=
  fold_right String.append EmptyString l.

(** The double quote character, as a one byte string. *)
Definition dquote : string := String (ascii_of_nat 34) EmptyString.

(** ** unicode/utf8 *)

Module utf8.

Definition RuneError : Z := 65533.
Definition RuneSelf : Z := 128.
Definition MaxRune : Z := 1114111.
Definition UTFMax : Z := 4.
Definition locb : Z := 128.
Definition hicb : Z := 191.

(** The tables [first] and [acceptRanges]: for a leading byte, the length of
    the sequence and the accepted range of its second byte; [None] for a byte
    that cannot start a sequence of more than one byte. *)
Definition first (s0 : Z) : option (Z * Z * Z) :=
  if s0 <? 194 then None
  else if s0 <=? 223 then Some (2, locb, hicb)
  else if s0 =? 224 then Some (3, 160, hicb)
  else if s0 <=? 236 then Some (3, locb, hicb)
  else if s0 =? 237 then Some (3, locb, 159)
  else if s0 <=? 239 then Some (3, locb, hicb)
  else if s0 =? 240 then Some (4, 144, hicb)
  else if s0 <=? 243 then Some (4, locb, hicb)
  else if s0 =? 244 then Some (4, locb, 143)
  else None.

Definition cont (b : Z) : bool := (locb <=? b) && (b <=? hicb).

(** [utf8.DecodeRuneInString]: the first rune of [s] and its width in bytes;
    [(RuneError, 0)] on the empty string, [(RuneError, 1)] on a byte sequence
    that is not valid UTF-8. *)
Definition DecodeRuneInString (s : string) : Z * Z :=
  let n := len s in
  if n <? 1 then (RuneError, 0)
  else
    let s0 := byte_at s 0 in
    if s0 <? RuneSelf then (s0, 1)
    else
      match first s0 with
      | None => (RuneError, 1)
      | Some (sz, lo, hi) =>
        if n <? sz then (RuneError, 1)
        else
          let s1 := byte_at s 1 in
          if (s1 <? lo) || (hi <? s1) then (RuneError, 1)
          else if sz <=? 2 then
            (Z.lor (Z.shiftl (Z.land s0 31) 6) (Z.land s1 63), 2)
          else
            let s2 := byte_at s 2 in
            if negb (cont s2) then (RuneError, 1)
            else if sz <=? 3 then
              (Z.lor (Z.lor (Z.shiftl (Z.land s0 15) 12)
                            (Z.shiftl (Z.land s1 63) 6))
                     (Z.land s2 63), 3)
            else
              let s3 := byte_at s 3 in
              if negb (cont s3) then (RuneError, 1)
              else
                (Z.lor (Z.lor (Z.lor (Z.shiftl (Z.land s0 7) 18)
                                     (Z.shiftl (Z.land s1 63) 12))
                              (Z.shiftl (Z.land s2 63) 6))
                       (Z.land s3 63), 4)
      end.

(** [utf8.RuneStart]: the byte is not a continuation byte. *)
Definition RuneStart (b : Z) : bool := negb (Z.land b 192 =? 128).

(** The loop of [DecodeLastRuneInString] that backs up to the start of the
    last rune: [start] is decremented at most [fuel] times, down to [lim]. *)
Fixpoint back_up (fuel : nat) (s : string) (start lim : Z) : Z :=
  match fuel with
  | O => start
  | S fuel' =>
    if start <? lim then start
    else if RuneStart (byte_at s start) then start
    else back_up fuel' s (start - 1) lim
  end.

(** [utf8.DecodeLastRuneInString]. *)
Definition DecodeLastRuneInString (s : string) : Z * Z :=
  let end_ := len s in
  if end_ =? 0 then (RuneError, 0)
  else
    let start := end_ - 1 in
    let r := byte_at s start in
    if r <? RuneSelf then (r, 1)
    else
      let lim := Z.max 0 (end_ - UTFMax) in
      let start := back_up 4 s (start - 1) lim in
      let start := Z.max 0 start in
      let '(r, size) := DecodeRuneInString (slice s start end_) in
      if negb (start + size =? end_) then (RuneError, 1) else (r, size).

Definition b1 (z : Z) : string := String (byte_of z) EmptyString.

(** [string(r)] for a rune [r] ([utf8.AppendRune]): the UTF-8 encoding of
    [r], of [RuneError] for a surrogate or a value that is out of range. *)
Definition EncodeRune (r : Z) : string :=
  let enc3 (r : Z) :=
    b1 (Z.lor 224 (Z.shiftr r 12)) +:+
    b1 (Z.lor 128 (Z.land (Z.shiftr r 6) 63)) +:+
    b1 (Z.lor 128 (Z.land r 63)) in
  if (0 <=? r) && (r <=? 127) then b1 r
  else if (0 <=? r) && (r <=? 2047) then
    b1 (Z.lor 192 (Z.shiftr r 6)) +:+ b1 (Z.lor 128 (Z.land r 63))
  else if (r <? 0) || (MaxRune <? r) || ((55296 <=? r) && (r <=? 57343)) then
    enc3 RuneError
  else if r <=? 65535 then enc3 r
  else
    b1 (Z.lor 240 (Z.shiftr r 18)) +:+
    b1 (Z.lor 128 (Z.land (Z.shiftr r 12) 63)) +:+
    b1 (Z.lor 128 (Z.land (Z.shiftr r 6) 63)) +:+
    b1 (Z.lor 128 (Z.land r 63)).

(** The runes of a string, as [for _, r := range s] yields them: each with
    the bytes that follow it. *)
Fixpoint runes (fuel : nat) (s : string) : list Z :=
  match fuel with
  | O => []
  | S fuel' =>
    match s with
    | EmptyString => []
    | _ =>
      let '(r, w) := DecodeRuneInString s in
      r :: runes fuel' (drop_bytes (Z.to_nat w) s)
    end
  end.

End utf8.

(** ** unicode

    The case tables of the Unicode database are not part of the program: the
    lower case mapping of the runes above ASCII is a parameter of the
    development. *)

Class UnicodeTables := {
  (** [unicode.To(unicode.LowerCase, r)] for [r > unicode.MaxASCII] *)
  CaseRanges_lower : Z -> Z
}.

Module unicode.

Definition MaxASCII : Z := 127.

(** [unicode.ToLower] *)
Definition ToLower `{UnicodeTables} (r : Z) : Z :=
  if r <=? MaxASCII then
    if (65 <=? r) && (r <=? 90) then r + 32 else r
  else CaseRanges_lower r.

(** [unicode.IsSpace]: the Latin-1 spaces, and the table [White_Space]
    above Latin-1. *)
Definition IsSpace (r : Z) : bool :=
  if r <=? 255 then
    (r =? 9) || (r =? 10) || (r =? 11) || (r =? 12) || (r =? 13) ||
    (r =? 32) || (r =? 133) || (r =? 160)
  else
    (r =? 5760) || ((8192 <=? r) && (r <=? 8202)) || (r =? 8232) ||
    (r =? 8233) || (r =? 8239) || (r =? 8287) || (r =? 12288).

End unicode.

(** ** strings *)

Module strings.

Fixpoint HasPrefix (s prefix : string) : bool :=
  match prefix, s with
  | EmptyString, _ => true
  | String a p', String b s' => if Ascii.eqb a b then HasPrefix s' p' else false
  | String _ _, EmptyString => false
  end.

(** [strings.Index]: the index of the first instance of [substr] in [s],
    or -1. *)
Fixpoint Index (s substr : string) : Z :=
  match s with
  | EmptyString => if HasPrefix s substr then 0 else -1
  | String _ t =>
    if HasPrefix s substr then 0
    else let i := Index t substr in if i <? 0 then -1 else i + 1
  end.

(** [strings.Count] for a non-empty [substr]: the instances of [substr] in
    [s] that do not overlap. *)
Fixpoint count_from (fuel : nat) (s substr : string) : Z :=
  match fuel with
  | O => 0
  | S fuel' =>
    let i := Index s substr in
    if i <? 0 then 0
    else 1 + count_from fuel' (drop_bytes (Z.to_nat (i + len substr)) s) substr
  end.

(** [strings.Count]; for the empty [substr] it is one more than the number
    of runes of [s]. *)
Definition Count (s substr : string) : Z :=
  if len substr =? 0
  then Z.of_nat (length (utf8.runes (String.length s) s)) + 1
  else count_from (S (String.length s)) s substr.

(** The loop of [strings.Replace]: [rest] is [s[start:]], [i] the number of
    the iteration, [n] the iterations left. *)
Fixpoint Replace_loop (n : nat) (i : Z) (rest old new : string) : string :=
  match n with
  | O => rest
  | S n' =>
    let j :=
      if len old =? 0
      then (if 0 <? i then snd (utf8.DecodeRuneInString rest) else 0)
      else Index rest old in
    slice rest 0 j +:+ new +:+
    Replace_loop n' (i + 1) (drop_bytes (Z.to_nat (j + len old)) rest) old new
  end.

(** [strings.Replace]: [s] with the first [n] instances of [old] that do not
    overlap replaced by [new]; all of them if [n < 0]. *)
Definition Replace (s old new : string) (n : Z) : string :=
  if String.eqb old new || (n =? 0) then s
  else
    let m := Count s old in
    if m =? 0 then s
    else
      let n := if (n <? 0) || (m <? n) then m else n in
      Replace_loop (Z.to_nat n) 0 s old new.

(** [strings.Map]: the runes of [s] mapped by [mapping] and encoded again;
    a rune mapped to a negative value is dropped, a byte that is not valid
    UTF-8 reads as [utf8.RuneError]. *)
Definition Map (mapping : Z -> Z) (s : string) : string :=
  fold_right
    (fun c acc =>
       let r := mapping c in
       if 0 <=? r then utf8.EncodeRune r +:+ acc else acc)
    EmptyString (utf8.runes (String.length s) s).

Fixpoint isASCII (s : string) : bool :=
  match s with
  | EmptyString => true
  | String c t => (byte_val c <? utf8.RuneSelf) && isASCII t
  end.

Fixpoint lower_bytes (s : string) : string :=
  match s with
  | EmptyString => EmptyString
  | String c t =>
    let b := byte_val c in
    String (if (65 <=? b) && (b <=? 90) then byte_of (b + 32) else c)
           (lower_bytes t)
  end.

(** [strings.ToLower]: byte by byte on an ASCII string, through
    [unicode.ToLower] on the runes of any other. *)
Definition ToLower `{UnicodeTables} (s : string) : string :=
  if isASCII s then lower_bytes s else Map unicode.ToLower s.

Fixpoint contains_byte (cutset : string) (c : ascii) : bool :=
  match cutset with
  | EmptyString => false
  | String d t => Ascii.eqb c d || contains_byte t c
  end.

(** The bytes of [s] from the first one outside [cutset] on. *)
Fixpoint trim_left_bytes (s cutset : string) : string :=
  match s with
  | EmptyString => EmptyString
  | String c t => if contains_byte cutset c then trim_left_bytes t cutset else s
  end.

(** [strings.TrimRight] for an ASCII [cutset], which is what the generator
    passes: [s] without its trailing bytes that are in [cutset]. *)
Definition TrimRight (s cutset : string) : string :=
  rev_bytes (trim_left_bytes (rev_bytes s EmptyString) cutset) EmptyString.

(** [strings.indexFunc (s, f, false)]: the index of the first rune of [s]
    that does not satisfy [f], or -1. *)
Fixpoint indexFunc_false (fuel : nat) (s : string) (f : Z -> bool) (i : Z) : Z :=
  match fuel with
  | O => -1
  | S fuel' =>
    match s with
    | EmptyString => -1
    | _ =>
      let '(r, w) := utf8.DecodeRuneInString s in
      if negb (f r) then i
      else indexFunc_false fuel' (drop_bytes (Z.to_nat w) s) f (i + w)
    end
  end.

(** [strings.lastIndexFunc (s, f, false)]: the index of the last rune of
    [s[0:i]] that does not satisfy [f], or -1. *)
Fixpoint lastIndexFunc_false (fuel : nat) (s : string) (f : Z -> bool) (i : Z) : Z :=
  match fuel with
  | O => -1
  | S fuel' =>
    if 0 <? i then
      let '(r, size) := utf8.DecodeLastRuneInString (slice s 0 i) in
      let i := i - size in
      if negb (f r) then i else lastIndexFunc_false fuel' s f i
    else -1
  end.

Definition TrimLeftFunc (s : string) (f : Z -> bool) : string :=
  let i := indexFunc_false (String.length s) s f 0 in
  if i =? -1 then EmptyString else drop_bytes (Z.to_nat i) s.

Definition TrimRightFunc (s : string) (f : Z -> bool) : string :=
  let i := lastIndexFunc_false (S (String.length s)) s f (len s) in
  let i :=
    if (0 <=? i) && (utf8.RuneSelf <=? byte_at s i)
    then i + snd (utf8.DecodeRuneInString (drop_bytes (Z.to_nat i) s))
    else i + 1 in
  slice s 0 i.

Definition TrimFunc (s : string) (f : Z -> bool) : string :=
  TrimRightFunc (TrimLeftFunc s f) f.

Definition asciiSpace (c : Z) : bool :=
  (c =? 9) || (c =? 10) || (c =? 11) || (c =? 12) || (c =? 13) || (c =? 32).

(** The second loop of [strings.TrimSpace], on the bytes of [s[start:]]
    in reverse: the trailing ASCII spaces are removed, up to a byte that is
    not a space ([inl]) or not ASCII ([inr]). *)
Fixpoint trim_space_end (r : string) : string + string :=
  match r with
  | EmptyString => inl EmptyString
  | String c t =>
    if utf8.RuneSelf <=? byte_val c then inr r
    else if asciiSpace (byte_val c) then trim_space_end t
    else inl r
  end.

(** [strings.TrimSpace]: the first loop skips the leading ASCII spaces and
    hands over to [TrimFunc] at a byte that is not ASCII; the second loop
    removes the trailing ASCII spaces and hands over to [TrimRightFunc] at a
    byte that is not ASCII. *)
Fixpoint TrimSpace (s : string) : string :=
  match s with
  | EmptyString => EmptyString
  | String c t =>
    if utf8.RuneSelf <=? byte_val c then TrimFunc s unicode.IsSpace
    else if asciiSpace (byte_val c) then TrimSpace t
    else
      match trim_space_end (rev_bytes s EmptyString) with
      | inl r => rev_bytes r EmptyString
      | inr r => TrimRightFunc (rev_bytes r EmptyString) unicode.IsSpace
      end
  end.

End strings.

(** ** fmtComment *)

(** [fmtComment]: the first rune of the comment in lower case, unless it
    decodes to [utf8.RuneError], then the spaces around the comment
    trimmed. *)
Definition fmtComment `{UnicodeTables} (comment : string) : string :=
  let '(r, n) := utf8.DecodeRuneInString comment in
  let comment :=
    if negb (r =? utf8.RuneError)
    then utf8.EncodeRune (unicode.ToLower r) +:+ drop_bytes (Z.to_nat n) comment
    else comment in
  strings.TrimSpace comment.

(** ** text/template

    The part of the template language that [bodyTmpl] uses: text, the
    actions [{{.Field}}] and [{{$x}}], [{{if pipeline}} T1 {{else}} T0 {{end}}]
    with the pipelines [.Field] and [not .Field], and
    [{{range $x := .Field}} T1 {{end}}]. *)

Module template.

(** The data a template is executed on, as reflection sees it. *)
Inductive Value : Type :=
| Str (s : string)
| Bool (b : bool)
| Slice (l : list Value)
| Struct (fields : list (string * Value)).

Inductive Arg : Type :=
| FieldArg (name : string)       (* .Name *)
| VariableArg (name : string).   (* $x *)

Inductive Pipe : Type :=
| Cmd (a : Arg)
| Not (a : Arg).                 (* not a *)

Inductive Node : Type :=
| TextNode (text : string)
| ActionNode (p : Pipe)
| IfNode (p : Pipe) (List ElseList : list Node)
| RangeNode (var : string) (p : Pipe) (List : list Node).

(** *** Parsing *)

Inductive item : Type :=
| itemText (text : string)
| itemAction (words : list string).

(** The words of an action, separated by spaces. *)
Fixpoint words (s cur : string) : list string :=
  let flush := if String.eqb cur EmptyString then [] else [rev_bytes cur EmptyString] in
  match s with
  | EmptyString => flush
  | String c t =>
    if Ascii.eqb c " " then (flush ++ words t EmptyString)%list
    else words t (String c cur)
  end.

(** The lexer: text up to a left delimiter, then an action up to the right
    delimiter. [cur] is the text or action read so far, in reverse. *)
Fixpoint lex (inside : bool) (s cur : string) : option (list item) :=
  match s with
  | EmptyString =>
    if inside then None
    else Some (if String.eqb cur EmptyString then []
               else [itemText (rev_bytes cur EmptyString)])
  | String c t =>
    match t with
    | String d t' =>
      if negb inside && Ascii.eqb c "{" && Ascii.eqb d "{" then
        its ← lex true t' EmptyString;
        Some ((if String.eqb cur EmptyString then []
               else [itemText (rev_bytes cur EmptyString)]) ++ its)%list
      else if inside && Ascii.eqb c "}" && Ascii.eqb d "}" then
        its ← lex false t' EmptyString;
        Some (itemAction (words (rev_bytes cur EmptyString) EmptyString) :: its)
      else lex inside t (String c cur)
    | EmptyString => lex inside t (String c cur)
    end
  end.

Definition parse_arg (w : string) : option Arg :=
  match w with
  | String "." name => Some (FieldArg name)
  | String "$" name => Some (VariableArg (String "$" name))
  | _ => None
  end.

Definition parse_pipe (ws : list string) : option Pipe :=
  match ws with
  | [w] => Cmd <$> parse_arg w
  | ["not"; w] => Not <$> parse_arg w
  | _ => None
  end.

(** What ends a list of nodes. *)
Inductive closer : Type := AtEOF | AtEnd | AtElse.

(** [itemList]: the nodes up to the next [{{end}}] or [{{else}}] at this
    level, what ended them and the items that follow. *)
Fixpoint itemList (fuel : nat) (its : list item)
  : option (list Node * closer * list item) :=
  match fuel with
  | O => None
  | S fuel' =>
    match its with
    | [] => Some ([], AtEOF, [])
    | itemText t :: rest =>
      '(ns, c, rest') ← itemList fuel' rest;
      Some (TextNode t :: ns, c, rest')
    | itemAction ["end"] :: rest => Some ([], AtEnd, rest)
    | itemAction ["else"] :: rest => Some ([], AtElse, rest)
    | itemAction ("if" :: ws) :: rest =>
      p ← parse_pipe ws;
      '(l, c, rest1) ← itemList fuel' rest;
      match c with
      | AtEnd =>
        '(ns, c', rest') ← itemList fuel' rest1;
        Some (IfNode p l [] :: ns, c', rest')
      | AtElse =>
        '(el, c2, rest2) ← itemList fuel' rest1;
        match c2 with
        | AtEnd =>
          '(ns, c', rest') ← itemList fuel' rest2;
          Some (IfNode p l el :: ns, c', rest')
        | _ => None
        end
      | AtEOF => None
      end
    | itemAction ["range"; x; ":="; w] :: rest =>
      p ← parse_pipe [w];
      '(l, c, rest1) ← itemList fuel' rest;
      match c with
      | AtEnd =>
        '(ns, c', rest') ← itemList fuel' rest1;
        Some (RangeNode x p l :: ns, c', rest')
      | _ => None
      end
    | itemAction ws :: rest =>
      p ← parse_pipe ws;
      '(ns, c, rest') ← itemList fuel' rest;
      Some (ActionNode p :: ns, c, rest')
    end
  end.

(** [Template.Parse]: [None] when the text is not a template. *)
Definition Parse (text : string) : option (list Node) :=
  its ← lex false text EmptyString;
  '(ns, c, _) ← itemList (S (length its)) its;
  match c with AtEOF => Some ns | _ => None end.

(** *** Execution *)

Definition lookup_field (name : string) (fields : list (string * Value))
  : option Value :=
  snd <$> find (fun kv => String.eqb (fst kv) name) fields.

Definition evalArg (dot : Value) (vars : list (string * Value)) (a : Arg)
  : Value + string :=
  match a with
  | FieldArg name =>
    match dot with
    | Struct fields =>
      match lookup_field name fields with
      | Some v => inl v
      | None => inr ("can't evaluate field " +:+ name)
      end
    | _ => inr ("can't evaluate field " +:+ name)
    end
  | VariableArg x =>
    match lookup_field x vars with
    | Some v => inl v
    | None => inr ("undefined variable: " +:+ x)
    end
  end.

(** [template.IsTrue]: a value is true unless it is the zero of its type or
    an empty string or slice (structs are always true). *)
Definition truth (v : Value) : bool :=
  match v with
  | Str s => negb (String.eqb s EmptyString)
  | Bool b => b
  | Slice l => match l with [] => false | _ => true end
  | Struct _ => true
  end.

Definition evalPipeline (dot : Value) (vars : list (string * Value)) (p : Pipe)
  : Value + string :=
  match p with
  | Cmd a => evalArg dot vars a
  | Not a =>
    match evalArg dot vars a with
    | inl v => inl (Bool (negb (truth v)))
    | inr e => inr e
    end
  end.

(** What an action prints: a string as it is, a boolean as [true] or
    [false]. ([bodyTmpl] prints nothing else.) *)
Definition printValue (v : Value) : option string :=
  match v with
  | Str s => Some s
  | Bool true => Some "true"
  | Bool false => Some "false"
  | _ => None
  end.

(** The outcome of executing nodes: the byte strings handed to the writer,
    one per call of [Write], and the error that stopped the execution. *)
Definition Writes : Type := list string * option string.

Definition then_ (w : Writes) (k : Writes) : Writes :=
  match w with
  | (o, Some e) => (o, Some e)
  | (o, None) => ((o ++ fst k)%list, snd k)
  end.

Fixpoint walkList (walk1 : Node -> Writes) (l : list Node) : Writes :=
  match l with
  | [] => ([], None)
  | n :: l' => then_ (walk1 n) (walkList walk1 l')
  end.

Fixpoint walkRange (body : Value -> Writes) (elems : list Value) : Writes :=
  match elems with
  | [] => ([], None)
  | v :: elems' => then_ (body v) (walkRange body elems')
  end.

(** [state.walk]: the execution of one node. *)
Fixpoint walk (dot : Value) (vars : list (string * Value)) (n : Node) : Writes :=
  match n with
  | TextNode text => ([text], None)
  | ActionNode p =>
    match evalPipeline dot vars p with
    | inl v =>
      match printValue v with
      | Some s => ([s], None)
      | None => ([], Some "can't print value")
      end
    | inr e => ([], Some e)
    end
  | IfNode p l el =>
    match evalPipeline dot vars p with
    | inl v =>
      if truth v then walkList (walk dot vars) l
      else walkList (walk dot vars) el
    | inr e => ([], Some e)
    end
  | RangeNode x p l =>
    match evalPipeline dot vars p with
    | inl (Slice elems) =>
      walkRange (fun v => walkList (walk v ((x, v) :: vars)) l) elems
    | inl _ => ([], Some "range can't iterate over value")
    | inr e => ([], Some e)
    end
  end.

(** The writes of [Template.Execute] on [data]. *)
Definition execute (t : list Node) (data : Value) : Writes :=
  walkList (walk data [("$", data)]) t.

End template.

(** ** The template of the generated file *)

Definition bodyTmpl : string :=
"// Code generated by go generate; DO NOT EDIT.
package {{.PackageName}}

import (
{{range $import := .Imports}}	{{$import}}
{{end}}
)

// Changed returns true if named field has been set
func (o *{{.StructName}}) Changed(fieldName string) bool {
	return util.Changed(o, fieldName)
}

// ToParams formats struct fields to be passed to API service
func (o *{{.StructName}}) ToParams() (url.Values, error) {
	return util.ToParams(o)
}

{{range $field := .Fields}}
// With{{.Name}} set {{if .Comment}}{{.Comment}}{{else}}field {{.Name}} to given value{{end}}
func(o *{{.StructName}}) With{{.Name}}(value {{.Type}}) *{{.StructName}} {
	o.{{.Name}} = {{if not .Composite}}&{{end}}value
	return o
}

// Get{{.Name}} returns value of {{if .Comment}}{{.Comment}}{{else}}field {{.Name}}{{end}}
func(o *{{.StructName}}) Get{{.Name}}() {{.Type}} {
	if o.{{.Name}} == nil {
		var z {{.Type}}
		return z
	}
    return {{if not .Composite}}*{{end}}o.{{.Name}}
}
{{end}}
".

(** ** The process: state, panics and exits

    A computation of the program runs on a state and either yields a value or
    stops the process: [os.Exit] with a status, or a panic. *)

Inductive Abort : Type :=
| Exit (code : Z)
| Panic (msg : string).

Inductive Res (A : Type) : Type :=
| Val (a : A)
| Stop (e : Abort).
Arguments Val {A} a.
Arguments Stop {A} e.

Definition M (St A : Type) : Type := St -> Res A * St.

Definition ret {St A} (a : A) : M St A := fun s => (Val a, s).

Definition bind {St A B} (m : M St A) (k : A -> M St B) : M St B :=
  fun s =>
    match m s with
    | (Val a, s') => k a s'
    | (Stop e, s') => (Stop e, s')
    end.

Definition get {St} : M St St := fun s => (Val s, s).
Definition modify {St} (f : St -> St) : M St unit := fun s => (Val tt, f s).
Definition panic {St A} (msg : string) : M St A := fun s => (Stop (Panic msg), s).
Definition os_Exit {St A} (code : Z) : M St A := fun s => (Stop (Exit code), s).

Declare Scope go_scope.
Delimit Scope go_scope with go.
Notation "x <- m ;; k" := (bind m (fun x => k))
  (at level 100, m at next level, right associativity) : go_scope.
Notation "m ;; k" := (bind m (fun _ => k))
  (at level 100, right associativity) : go_scope.
Local Open Scope go_scope.

(** [for _, x := range l { body x }] *)
Definition for_range {St A} (l : list A) (body : A -> M St unit) : M St unit :=
  (fix loop (l : list A) : M St unit :=
     match l with
     | [] => ret tt
     | x :: l' => body x;; loop l'
     end) l.

(** ** go/ast

    The syntax tree, as far as the generator looks at it. Every node carries
    the results of its methods [Pos] and [End]. The node types the generator
    does not tell apart (files, declarations, statements, the other
    expressions) are [OtherNode], with their children in the order [ast.Walk]
    visits them. Single comments and literals, the comments and the type
    parameters of a type specification are not represented: the visitor of
    the generator returns true on them and does nothing else. *)

Module ast.

Record Span : Type := { Pos : Z; End_ : Z }.

Record Ident : Type := { NamePos : Z; Name : string }.

(** A comment group, with the result of its method [Text]. *)
Record CommentGroup : Type := { Text : string }.

Record BasicLit : Type := { Value : string }.

Record ImportSpec : Type := { Path : BasicLit }.

Inductive Node : Type :=
| Ident_ (sp : Span) (id : Ident)
| StarExpr (sp : Span) (X : Node)
| ArrayType (sp : Span) (Len : option Node) (Elt : Node)
| MapType (sp : Span) (Key Value : Node)
| StructType (sp : Span) (Fields : list Field)
| TypeSpec (sp : Span) (Name : Ident) (Type_ : Node)
| OtherNode (sp : Span) (children : list Node)
with Field : Type :=
| mkField (Doc : option CommentGroup) (Names : list Ident) (Type_ : Node)
          (Tag : option BasicLit) (Comment : option CommentGroup).

Record File : Type := {
  File_Name : Ident;
  Decls : list Node;
  Imports : list ImportSpec
}.

Definition span (n : Node) : Span :=
  match n with
  | Ident_ sp _ | StarExpr sp _ | ArrayType sp _ _ | MapType sp _ _
  | StructType sp _ | TypeSpec sp _ _ | OtherNode sp _ => sp
  end.

Definition Doc (f : Field) : option CommentGroup :=
  let 'mkField d _ _ _ _ := f in d.
Definition Names (f : Field) : list Ident :=
  let 'mkField _ ns _ _ _ := f in ns.
Definition Type_ (f : Field) : Node :=
  let 'mkField _ _ t _ _ := f in t.
Definition Tag (f : Field) : option BasicLit :=
  let 'mkField _ _ _ t _ := f in t.
Definition Comment (f : Field) : option CommentGroup :=
  let 'mkField _ _ _ _ c := f in c.

(** The method [Text] of a comment group; the empty string on [nil]. *)
Definition CommentGroup_Text (g : option CommentGroup) : string :=
  match g with
  | Some g => Text g
  | None => EmptyString
  end.

(** What a visitor is called on: a node of one of the types above, or
    [nil]. *)
Inductive Visited : Type :=
| VNode (n : Node)
| VFile (f : File)
| VIdent (id : Ident)
| VFieldList (l : list Field)
| VField (f : Field)
| VCommentGroup (g : CommentGroup)
| VBasicLit (l : BasicLit)
| VNil.

Section Walk.
Context {St : Type} (f : Visited -> M St bool).

(** A node without children: the visitor is called on it and, if it asks
    for the children, on [nil]. *)
Definition walkLeaf (v : Visited) : M St unit :=
  d <- f v;;
  if d then (_ <- f VNil;; ret tt) else ret tt.

Definition walkOpt {A} (w : A -> M St unit) (o : option A) : M St unit :=
  match o with
  | Some a => w a
  | None => ret tt
  end.

(** [ast.Walk] with the visitor of [ast.Inspect]: [f] is called on the node;
    if it returns true, the children are walked in order and [f] is called
    on [nil]. *)
Fixpoint Walk (n : Node) : M St unit :=
  d <- f (VNode n);;
  if d then
    match n with
    | Ident_ _ _ => ret tt
    | StarExpr _ x => Walk x
    | ArrayType _ l elt => walkOpt Walk l;; Walk elt
    | MapType _ k v => Walk k;; Walk v
    | StructType _ fields =>
      d' <- f (VFieldList fields);;
      if d' then for_range fields WalkField;; _ <- f VNil;; ret tt
      else ret tt
    | TypeSpec _ name t => walkLeaf (VIdent name);; Walk t
    | OtherNode _ cs => for_range cs Walk
    end;;
    _ <- f VNil;; ret tt
  else ret tt
with WalkField (fld : Field) : M St unit :=
  d <- f (VField fld);;
  if d then
    match fld with
    | mkField doc names t tag comment =>
      walkOpt (fun g => walkLeaf (VCommentGroup g)) doc;;
      for_range names (fun id => walkLeaf (VIdent id));;
      Walk t;;
      walkOpt (fun l => walkLeaf (VBasicLit l)) tag;;
      walkOpt (fun g => walkLeaf (VCommentGroup g)) comment
    end;;
    _ <- f VNil;; ret tt
  else ret tt.

(** [ast.Inspect] on a file: the file node, its name, its declarations. *)
Definition Inspect (file : File) : M St unit :=
  d <- f (VFile file);;
  if d then
    walkLeaf (VIdent (File_Name file));;
    for_range (Decls file) Walk;;
    _ <- f VNil;; ret tt
  else ret tt.

End Walk.

(** The calls of the visitor during [Walk], in order, when the visitor
    always asks for the children. *)
Fixpoint visits (n : Node) : list Visited :=
  VNode n ::
  match n with
  | Ident_ _ _ => []
  | StarExpr _ x => visits x
  | ArrayType _ l elt =>
    match l with Some x => visits x | None => [] end ++ visits elt
  | MapType _ k v => visits k ++ visits v
  | StructType _ fields =>
    VFieldList fields :: concat (map visitsField fields) ++ [VNil]
  | TypeSpec _ name t => [VIdent name; VNil] ++ visits t
  | OtherNode _ cs => concat (map visits cs)
  end ++ [VNil]
with visitsField (fld : Field) : list Visited :=
  VField fld ::
  match fld with
  | mkField doc names t tag comment =>
    match doc with Some g => [VCommentGroup g; VNil] | None => [] end ++
    concat (map (fun id => [VIdent id; VNil]) names) ++
    visits t ++
    match tag with Some l => [VBasicLit l; VNil] | None => [] end ++
    match comment with Some g => [VCommentGroup g; VNil] | None => [] end
  end ++ [VNil].

Definition visitsFile (file : File) : list Visited :=
  VFile file :: [VIdent (File_Name file); VNil] ++
  concat (map visits (Decls file)) ++ [VNil].

(** The types of the type declarations named [name] among the visited
    nodes, in the order of the visits. *)
Definition declared (name : string) (vs : list Visited) : list Node :=
  omap (fun v =>
          match v with
          | VNode (TypeSpec _ id t) =>
            if String.eqb (Name id) name then Some t else None
          | _ => None
          end) vs.

End ast.

(** ** The generator *)

Record fieldStruct : Type := {
  Comment : string;
  Composite : bool;
  Name : string;
  StructName : string;
  Type_ : string
}.

(** The data of the template, as reflection presents it to the template. *)
Definition fieldStruct_value (fs : fieldStruct) : template.Value :=
  template.Struct
    [("Comment", template.Str (Comment fs));
     ("Composite", template.Bool (Composite fs));
     ("Name", template.Str (Name fs));
     ("StructName", template.Str (StructName fs));
     ("Type", template.Str (Type_ fs))].

Record bodyStruct : Type := {
  PackageName : string;
  Imports : list string;
  body_StructName : string;
  Fields : list fieldStruct
}.

Definition bodyStruct_value (bs : bodyStruct) : template.Value :=
  template.Struct
    [("PackageName", template.Str (PackageName bs));
     ("Imports", template.Slice (map template.Str (Imports bs)));
     ("StructName", template.Str (body_StructName bs));
     ("Fields", template.Slice (map fieldStruct_value (Fields bs)))].

(** What the program runs on, outside its own code: the Unicode tables, the
    Go parser, the operating system's answer to the creation of a file and
    the commands [go fmt] and [goimports], which rewrite the files and
    succeed or fail. Errors are given by their text. *)
Class Platform : Type := {
  Platform_tables :: UnicodeTables;
  (** [parser.ParseFile] with [parser.ParseComments]: the syntax tree of the
      bytes, or the error *)
  parser_ParseFile : string -> ast.File + string;
  (** the error of [os.Create] on this path, if it fails *)
  os_Create_error : string -> option string;
  (** [exec.Command(argv...).Run()] on the files: the files afterwards and
      the error, if the command failed *)
  exec_Run : list string -> gmap string string -> gmap string string * option string
}.

(** The state of the process: the files, by path; the lines printed; the
    file [out], once created, and whether it has been closed; the variables
    [closed] and [fieldStructs] of [main]. *)
Record State : Type := {
  files : gmap string string;
  stdout : list string;
  out : option string;
  out_closed : bool;
  closed : bool;
  fieldStructs : list fieldStruct
}.

Definition set_files (f : gmap string string -> gmap string string) (s : State) : State :=
  {| files := f (files s); stdout := stdout s; out := out s;
     out_closed := out_closed s; closed := closed s;
     fieldStructs := fieldStructs s |}.

Definition set_stdout (f : list string -> list string) (s : State) : State :=
  {| files := files s; stdout := f (stdout s); out := out s;
     out_closed := out_closed s; closed := closed s;
     fieldStructs := fieldStructs s |}.

Definition set_out (o : option string) (s : State) : State :=
  {| files := files s; stdout := stdout s; out := o;
     out_closed := out_closed s; closed := closed s;
     fieldStructs := fieldStructs s |}.

Definition set_out_closed (b : bool) (s : State) : State :=
  {| files := files s; stdout := stdout s; out := out s;
     out_closed := b; closed := closed s;
     fieldStructs := fieldStructs s |}.

Definition set_closed (b : bool) (s : State) : State :=
  {| files := files s; stdout := stdout s; out := out s;
     out_closed := out_closed s; closed := b;
     fieldStructs := fieldStructs s |}.

Definition set_fieldStructs (f : list fieldStruct -> list fieldStruct) (s : State) : State :=
  {| files := files s; stdout := stdout s; out := out s;
     out_closed := out_closed s; closed := closed s;
     fieldStructs := f (fieldStructs s) |}.

(** The contents of a file; empty if there is none. *)
Definition contents (fs : gmap string string) (path : string) : string :=
  default EmptyString (fs !! path).

Definition fmt_Println (line : string) : M State unit :=
  modify (set_stdout (fun out => out ++ [line])%list).

(** [os.Getenv]: the empty string for a variable that is not set. *)
Definition os_Getenv (env : gmap string string) (key : string) : string :=
  default EmptyString (env !! key).

(** [ioutil.ReadFile] *)
Definition ioutil_ReadFile (path : string) : M State (string + string) :=
  s <- get;;
  match files s !! path with
  | Some b => ret (inl b)
  | None => ret (inr ("open " +:+ path +:+ ": no such file or directory"))
  end.

(** [os.Create]: the file is created, or truncated if it exists. *)
Definition os_Create `{Platform} (path : string) : M State (option string) :=
  match os_Create_error path with
  | Some e => ret (Some e)
  | None =>
    modify (fun s => set_out (Some path) (set_files (insert path EmptyString) s));;
    ret None
  end.

Definition out_Name : M State string :=
  s <- get;; ret (default EmptyString (out s)).

(** [out.Close()]: an error on a file that is closed already. *)
Definition out_Close : M State (option string) :=
  s <- get;;
  if out_closed s then
    name <- out_Name;;
    ret (Some ("close " +:+ name +:+ ": file already closed"))
  else modify (set_out_closed true);; ret None.

(** [body.Execute(out, data)]: each write appends to the file; a write to a
    closed file fails, and the execution stops at the first error. *)
Definition body_Execute (body : list template.Node) (data : template.Value)
  : M State (option string) :=
  s <- get;;
  path <- out_Name;;
  let '(writes, err) := template.execute body data in
  if out_closed s then
    match writes with
    | [] => ret err
    | _ :: _ => ret (Some ("write " +:+ path +:+ ": file already closed"))
    end
  else
    modify (set_files (fun fs =>
      <[path := contents fs path +:+ join writes]> fs));;
    ret err.

(** [exec.Command(argv...)] with its [Run]. *)
Definition exec_Command_Run `{Platform} (argv : list string) : M State (option string) :=
  s <- get;;
  let '(fs, err) := exec_Run argv (files s) in
  modify (set_files (fun _ => fs));;
  ret err.

(** The name of the file [main] creates. *)
Definition out_path `{Platform} (srcFile inputStructName : string) : string :=
  strings.TrimRight srcFile ".go" +:+ "_" +:+
  strings.Replace (strings.ToLower inputStructName) "options" "_options" 1 +:+
  ".go".

Section main.
Context `{Platform}.
Variables (inputStructName : string) (b : string) (imports : list string)
          (GOPACKAGE : string) (body : list template.Node).

(** The name of a field: the first of its names. A field without names
    gets the empty name; the check of the name is made on a first name. *)
Definition field_name (field : ast.Field) : M State string :=
  match ast.Names field with
  | id :: _ =>
    let name := ast.Name id in
    if len name <? 1 then panic "bad name" else ret name
  | [] => ret EmptyString
  end.

(** The type switch on the type of a field. *)
Definition composite_of (field_Type : ast.Node) : bool :=
  match field_Type with
  | ast.MapType _ _ _ | ast.StructType _ _ | ast.ArrayType _ _ _ => true
  | _ => false
  end.

(** The body of the loop over the fields of the struct. The slice
    expression panics when its bounds are out of range. *)
Definition field_step (field : ast.Field) : M State unit :=
  name <- field_name field;;
  let composite := composite_of (ast.Type_ field) in
  let typeExpr := ast.Type_ field in
  let start := ast.Pos (ast.span typeExpr) - 1 in
  let end_ := ast.End_ (ast.span typeExpr) - 1 in
  if negb ((0 <=? start) && (start <=? end_) && (end_ <=? len b))
  then panic "slice bounds out of range"
  else
    let fieldType := strings.Replace (slice b start end_) "*" "" 1 in
    modify (set_fieldStructs (fun l => l ++ [
      {| Comment := fmtComment (ast.CommentGroup_Text (ast.Comment field));
         Composite := composite;
         Name := name;
         StructName := inputStructName;
         Type_ := fieldType |}])%list).

(** The function [main] passes to [ast.Inspect], from the assertion that
    the declared type is a struct type on: what it does on a type
    declaration of the wanted name. *)
Definition generate (ref_Type : ast.Node) : M State bool :=
  match ref_Type with
  | ast.StructType _ x_Fields =>
    for_range x_Fields field_step;;
    s <- get;;
    let bodyStruct :=
      {| PackageName := GOPACKAGE;
         Imports := imports;
         body_StructName := inputStructName;
         Fields := fieldStructs s |} in
    (* create the body *)
    err <- body_Execute body (bodyStruct_value bodyStruct);;
    match err with
    | Some e => fmt_Println e;; os_Exit 1
    | None =>
      (* close out file *)
      err <- out_Close;;
      match err with
      | Some e => fmt_Println e;; os_Exit 1
      | None =>
        modify (set_closed true);;
        (* go fmt file *)
        name <- out_Name;;
        err <- exec_Command_Run ["go"; "fmt"; name];;
        match err with
        | Some e => fmt_Println e;; os_Exit 1
        | None =>
          (* go import file *)
          err <- exec_Command_Run ["goimports"; "-w"; name];;
          match err with
          | Some e => fmt_Println e;; os_Exit 1
          | None => ret true
          end
        end
      end
    end
  | _ => panic "interface conversion: ast.Expr is not *ast.StructType"
  end.

(** The function [main] passes to [ast.Inspect]: it returns true on a node
    that is not a type declaration of the wanted name. *)
Definition inspector (n : ast.Visited) : M State bool :=
  match n with
  | ast.VNode (ast.TypeSpec _ ref_Name ref_Type) =>
    if negb (String.eqb (ast.Name ref_Name) inputStructName) then ret true
    else generate ref_Type
  | _ => ret true
  end.

End main.

(** [main], up to the deferred call. *)
Definition main_body `{Platform} (Args : list string) (env : gmap string string)
  : M State unit :=
  let srcFile := os_Getenv env "GOFILE" in
  match Args with
  | _ :: inputStructName :: _ =>
    r <- ioutil_ReadFile srcFile;;
    match r with
    | inr e => panic e
    | inl b =>
      match parser_ParseFile b with
      | inr e => panic e
      | inl f =>
        (* always add reflect *)
        let imports :=
          ([dquote +:+ "reflect" +:+ dquote;
            dquote +:+ "github.com/containers/podman/v4/pkg/bindings/internal/util" +:+ dquote]
           ++ map (fun imp => ast.Value (ast.Path imp)) (ast.Imports f))%list in
        err <- os_Create (out_path srcFile inputStructName);;
        match err with
        | Some e => panic e
        | None =>
          match template.Parse bodyTmpl with
          | None => panic "template: body: parse error"
          | Some body =>
            ast.Inspect
              (inspector inputStructName b imports (os_Getenv env "GOPACKAGE") body)
              f
          end
        end
      end
    end
  | _ => panic "runtime error: index out of range [1]"
  end.

(** The deferred function of [main]: it closes [out] unless [closed] is
    set. It is deferred once [out] is created. *)
Definition deferred (s : State) : State :=
  match out s with
  | Some _ => if closed s then s else set_out_closed true s
  | None => s
  end.

Inductive Outcome : Type :=
| Returned
| Exited (code : Z)
| Panicked (msg : string).

(** The exit status of the process: 0 when [main] returns, the argument of
    [os.Exit], 2 after a panic. *)
Definition exit_status (o : Outcome) : Z :=
  match o with
  | Returned => 0
  | Exited code => code
  | Panicked _ => 2
  end.

Definition initial (fs : gmap string string) : State :=
  {| files := fs; stdout := []; out := None; out_closed := false;
     closed := false; fieldStructs := [] |}.

(** A run of the program: [main] on the arguments, the environment and the
    files. The deferred call runs when [main] returns or panics, not when
    the process exits through [os.Exit]. *)
Definition main `{Platform} (Args : list string) (env : gmap string string)
    (fs : gmap string string) : Outcome * State :=
  match main_body Args env (initial fs) with
  | (Val _, s) => (Returned, deferred s)
  | (Stop (Panic msg), s) => (Panicked msg, deferred s)
  | (Stop (Exit code), s) => (Exited code, s)
  end.

(** ** The vocabulary of the properties *)

(** *** The text of the generated file

    The generated file as the specification describes it: a header with the
    package clause, the imports and the methods [Changed] and [ToParams],
    then for each field a method [With<Name>] and a method [Get<Name>]. *)

(** The doc text of a method: the comment of the field, or else a phrase
    made of its name. *)
Definition doc_or (f : fieldStruct) (phrase : string) : string :=
  if String.eqb (Comment f) "" then phrase else Comment f.

Definition With_doc (f : fieldStruct) : string :=
  "// With" +:+ Name f +:+ " set " +:+
  doc_or f ("field " +:+ Name f +:+ " to given value").

Definition Get_doc (f : fieldStruct) : string :=
  "// Get" +:+ Name f +:+ " returns value of " +:+
  doc_or f ("field " +:+ Name f).

(** The setter: it assigns the address of the value to a field that is not
    composite, the value itself to a composite one, and returns [o]. *)
Definition With_method (f : fieldStruct) : string :=
  "
" +:+ With_doc f +:+ "
func(o *" +:+ StructName f +:+ ") With" +:+ Name f +:+ "(value " +:+ Type_ f +:+
  ") *" +:+ StructName f +:+ " {
	o." +:+ Name f +:+ " = " +:+ (if Composite f then "" else "&") +:+ "value
	return o
}
".

(** The getter: on [nil] it returns a variable of the type that was never
    assigned; otherwise what the field points to if it is not composite, the
    field itself if it is composite. *)
Definition Get_method (f : fieldStruct) : string :=
  "
" +:+ Get_doc f +:+ "
func(o *" +:+ StructName f +:+ ") Get" +:+ Name f +:+ "() " +:+ Type_ f +:+ " {
	if o." +:+ Name f +:+ " == nil {
		var z " +:+ Type_ f +:+ "
		return z
	}
    return " +:+ (if Composite f then "" else "*") +:+ "o." +:+ Name f +:+ "
}
".

Definition header (bs : bodyStruct) : string :=
  "// Code generated by go generate; DO NOT EDIT.
package " +:+ PackageName bs +:+ "

import (
" +:+ join (map (fun i => "	" +:+ i +:+ "
") (Imports bs)) +:+ "
)

// Changed returns true if named field has been set
func (o *" +:+ body_StructName bs +:+ ") Changed(fieldName string) bool {
	return util.Changed(o, fieldName)
}

// ToParams formats struct fields to be passed to API service
func (o *" +:+ body_StructName bs +:+ ") ToParams() (url.Values, error) {
	return util.ToParams(o)
}

".

(** The methods of the fields: one pair per field, in order. *)
Definition methods (fields : list fieldStruct) : string :=
  join (map (fun f => With_method f +:+ Get_method f) fields).

Definition generated (bs : bodyStruct) : string :=
  header bs +:+ methods (Fields bs) +:+ "
".

(** *** The template, parsed *)

(** The nodes of [bodyTmpl]. *)
Definition body_nodes : list template.Node :=
  Eval vm_compute in default [] (template.Parse bodyTmpl).

Definition range_body (i : nat) : list template.Node :=
  match nth_error body_nodes i with
  | Some (template.RangeNode _ _ l) => l
  | _ => []
  end.

(** The nodes inside the two [range] actions of [bodyTmpl]. *)
Definition imports_nodes : list template.Node := Eval vm_compute in range_body 3.
Definition fields_nodes : list template.Node := Eval vm_compute in range_body 9.

(** The writes of the template for one field. *)
Definition method_writes (f : fieldStruct) : list string :=
  ["
// With"; Name f; " set "] ++
  (if String.eqb (Comment f) ""
   then ["field "; Name f; " to given value"] else [Comment f]) ++
  ["
func(o *"; StructName f; ") With"; Name f; "(value "; Type_ f; ") *";
   StructName f; " {
	o."; Name f; " = "] ++ (if Composite f then [] else ["&"]) ++ ["value
	return o
}

// Get"; Name f; " returns value of "] ++
  (if String.eqb (Comment f) "" then ["field "; Name f] else [Comment f]) ++
  ["
func(o *"; StructName f; ") Get"; Name f; "() "; Type_ f; " {
	if o."; Name f; " == nil {
		var z "; Type_ f; "
		return z
	}
    return "] ++ (if Composite f then [] else ["*"]) ++ ["o."; Name f; "
}
"].

(** The writes of the template before the methods of the fields. *)
Definition header_writes (bs : bodyStruct) : list string :=
  ["// Code generated by go generate; DO NOT EDIT.
package "; PackageName bs; "

import (
"] ++ concat (map (fun i => ["	"; i; "
"]) (Imports bs)) ++ ["
)

// Changed returns true if named field has been set
func (o *"; body_StructName bs; ") Changed(fieldName string) bool {
	return util.Changed(o, fieldName)
}

// ToParams formats struct fields to be passed to API service
func (o *"; body_StructName bs; ") ToParams() (url.Values, error) {
	return util.ToParams(o)
}

"].

(** *** Field entries *)

(** The first name of a field entry; empty for an entry without names. *)
Definition first_name (e : ast.Field) : string :=
  match ast.Names e with
  | id :: _ => ast.Name id
  | [] => EmptyString
  end.

(** All the field names a list of entries declares. *)
Definition declared_names (entries : list ast.Field) : list string :=
  concat (map (fun e => map ast.Name (ast.Names e)) entries).

(** The entry has a name, and its first name is not empty. *)
Definition named (e : ast.Field) : bool :=
  match ast.Names e with
  | id :: _ => negb (String.eqb (ast.Name id) EmptyString)
  | [] => false
  end.

(** The type expression of the entry lies in the source [b]. *)
Definition type_in_source (b : string) (e : ast.Field) : bool :=
  let sp := ast.span (ast.Type_ e) in
  (1 <=? ast.Pos sp) && (ast.Pos sp <=? ast.End_ sp) && (ast.End_ sp <=? len b + 1).

(** The bytes of the type expression of the entry. *)
Definition type_text (b : string) (e : ast.Field) : string :=
  let sp := ast.span (ast.Type_ e) in
  slice b (ast.Pos sp - 1) (ast.End_ sp - 1).

(** A string without the first occurrence of the byte [c], if there is
    one. *)
Fixpoint remove_first (c : ascii) (s : string) : string :=
  match s with
  | EmptyString => EmptyString
  | String a t => if Ascii.eqb a c then t else String a (remove_first c t)
  end.

(** The number of occurrences of the byte [c]. *)
Fixpoint occurrences (c : ascii) (s : string) : nat :=
  match s with
  | EmptyString => O
  | String a t => (if Ascii.eqb a c then 1 else 0) + occurrences c t
  end.

(** The descriptor [field_step] appends for an entry that passes its
    checks. *)
Definition fieldStruct_of `{UnicodeTables} (inputStructName b : string)
    (e : ast.Field) : fieldStruct :=
  {| Comment := fmtComment (ast.CommentGroup_Text (ast.Comment e));
     Composite := composite_of (ast.Type_ e);
     Name := first_name e;
     StructName := inputStructName;
     Type_ := strings.Replace (type_text b e) "*" "" 1 |}.

(** *** Runs *)

(** The files after the two commands that follow the rendering: [go fmt],
    then, if it succeeded, [goimports]. *)
Definition post_files `{Platform} (path : string) (fs : gmap string string)
  : gmap string string :=
  let '(fs1, err) := exec_Run ["go"; "fmt"; path] fs in
  match err with
  | None => fst (exec_Run ["goimports"; "-w"; path] fs1)
  | Some _ => fs1
  end.

(** Both commands succeed. *)
Definition post_ok `{Platform} (path : string) (fs : gmap string string) : bool :=
  let '(fs1, err) := exec_Run ["go"; "fmt"; path] fs in
  match err with
  | None => bool_decide (snd (exec_Run ["goimports"; "-w"; path] fs1) = None)
  | Some _ => false
  end.

(** The imports of the generated file. *)
Definition imports_of (f : ast.File) : list string :=
  ([dquote +:+ "reflect" +:+ dquote;
    dquote +:+ "github.com/containers/podman/v4/pkg/bindings/internal/util" +:+ dquote]
   ++ map (fun imp => ast.Value (ast.Path imp)) (ast.Imports f))%list.

(** The state in which the syntax tree is searched: [out] is created and
    empty. *)
Definition searching (path : string) (fs : gmap string string) : State :=
  {| files := <[path := EmptyString]> fs; stdout := []; out := Some path;
     out_closed := false; closed := false; fieldStructs := [] |}.

(** *** Walks *)

(** The visitor called on each element of a list, in order. *)
Definition visit_all {St} (f : ast.Visited -> M St bool) (vs : list ast.Visited)
  : M St unit :=
  for_range vs (fun v => _ <- f v;; ret tt).

(** The visitor never prunes the walk. *)
Definition descends {St} (f : ast.Visited -> M St bool) : Prop :=
  forall v s d s', f v s = (Val d, s') -> d = true.

Definition and_then {St A} (r : Res A * St) (k : St -> Res unit * St)
  : Res unit * St :=
  match r with
  | (Val _, s) => k s
  | (Stop e, s) => (Stop e, s)
  end.

Definition done_ {St} : St -> Res unit * St := fun s => (Val tt, s).

(** The children of a node, walked. *)
Definition walkChildren {St} (f : ast.Visited -> M St bool) (n : ast.Node)
  : M St unit :=
  match n with
  | ast.Ident_ _ _ => ret tt
  | ast.StarExpr _ x => ast.Walk f x
  | ast.ArrayType _ l elt => ast.walkOpt (ast.Walk f) l;; ast.Walk f elt
  | ast.MapType _ k v => ast.Walk f k;; ast.Walk f v
  | ast.StructType _ fields =>
    d' <- f (ast.VFieldList fields);;
    if d' then for_range fields (ast.WalkField f);; _ <- f ast.VNil;; ret tt
    else ret tt
  | ast.TypeSpec _ name t => ast.walkLeaf f (ast.VIdent name);; ast.Walk f t
  | ast.OtherNode _ cs => for_range cs (ast.Walk f)
  end.

(** *** The steps of the generator *)

(** The checks of [field_step]: the first name, if there is one, is not
    empty, and the type expression lies in the source. *)
Definition checks (b : string) (e : ast.Field) : bool :=
  match ast.Names e with
  | id :: _ => negb (String.eqb (ast.Name id) EmptyString)
  | [] => true
  end && type_in_source b e.

(** The state with more descriptors in [fieldStructs]. *)
Definition add_fields (l : list fieldStruct) (s : State) : State :=
  set_fieldStructs (fun l0 => (l0 ++ l)%list) s.

(** The state after the rendering: [out] holds the files [fs], is closed,
    and [lines] were printed. *)
Definition rendered (path : string) (fields : list fieldStruct)
    (fs : gmap string string) (lines : list string) : State :=
  {| files := fs; stdout := lines; out := Some path; out_closed := true;
     closed := true; fieldStructs := fields |}.

(** A computation that yields nothing but true. *)
Definition yields_true {St} (m : M St bool) : Prop :=
  forall s d s', m s = (Val d, s') -> d = true.

(** *** Runs that reach the search of the tree *)

(** The run gets the wanted name [target] as its first argument, reads the
    source [b] and parses it to [f]. *)
Definition parses `{Platform} (Args : list string) (env fs : gmap string string)
    (target b : string) (f : ast.File) : Prop :=
  Args !! 1%nat = Some target /\
  fs !! os_Getenv env "GOFILE" = Some b /\
  parser_ParseFile b = inl f.

(** The run parses its source and creates its output file. *)
Definition searches `{Platform} (Args : list string) (env fs : gmap string string)
    (target b : string) (f : ast.File) : Prop :=
  parses Args env fs target b f /\
  os_Create_error (out_path (os_Getenv env "GOFILE") target) = None.

(** The generation cannot reach the rendering: the declared type is not a
    struct type, or one of its entries fails a check. *)
Definition stops_before_rendering (b : string) (t : ast.Node) : bool :=
  match t with
  | ast.StructType _ entries => negb (forallb (checks b) entries)
  | _ => true
  end.

(** *** The comment and the file name, as the specification words them *)

(** The text with its first character in lower case; a text that does not
    start with a character (it is empty, or its first bytes are not UTF-8) is
    left as it is. *)
Definition lower_first `{UnicodeTables} (text : string) : string :=
  let '(r, n) := utf8.DecodeRuneInString text in
  if r =? utf8.RuneError then text
  else utf8.EncodeRune (unicode.ToLower r) +:+ drop_bytes (Z.to_nat n) text.

(** An ASCII letter in lower case. *)
Definition lower_byte (c : ascii) : ascii :=
  let v := byte_val c in
  if (65 <=? v) && (v <=? 90) then byte_of (v + 32) else c.

(** The name without the extension [".go"], if it ends with it. *)
Definition without_extension (name : string) : string :=
  let n := String.length name in
  if String.eqb (drop_bytes (n - 3) name) ".go"
  then take_bytes (n - 3) name else name.

(** The name of the output file as the specification gives it: the source
    file name without its extension, an underscore, the wanted name in
    lower case with the first [options] rewritten to [_options], and the
    extension. *)
Definition specified_out_path `{Platform} (srcFile inputStructName : string) : string :=
  without_extension srcFile +:+ "_" +:+
  strings.Replace (strings.ToLower inputStructName) "options" "_options" 1 +:+
  ".go".

(** The text rendered for a struct type with these entries. *)
Definition rendering `{Platform} (env : gmap string string) (f : ast.File)
    (target b : string) (entries : list ast.Field) : string :=
  generated {| PackageName := os_Getenv env "GOPACKAGE"; Imports := imports_of f;
               body_StructName := target;
               Fields := map (fieldStruct_of target b) entries |}.

(** *** Example sources

    Go sources with the syntax trees the Go parser gives for them, and a
    platform to run the generator on them: its parser knows these sources,
    its files can always be created and its two commands succeed and leave the
    files as they are. Positions count the bytes of the source from 1. *)

Module Examples.

(** The index of the [k]-th occurrence of [text] in [src], from 0. *)
Fixpoint index_nth (k : nat) (src text : string) : Z :=
  let i := strings.Index src text in
  match k with
  | O => i
  | S k' =>
    i + 1 + index_nth k' (drop_bytes (Z.to_nat (i + 1)) src) text
  end.

(** The span of the [k]-th occurrence of [text] in [src]. *)
Definition span_nth (k : nat) (src text : string) : ast.Span :=
  let i := index_nth k src text in
  {| ast.Pos := i + 1; ast.End_ := i + 1 + len text |}.

Definition span_of : string -> string -> ast.Span := span_nth 0.

(** The identifier at the [k]-th occurrence of [name] in [src]. *)
Definition ident_nth (k : nat) (src name : string) : ast.Ident :=
  {| ast.NamePos := index_nth k src name + 1; ast.Name := name |}.

Definition ident_of : string -> string -> ast.Ident := ident_nth 0.

(** A type that is an identifier. *)
Definition named_type (k : nat) (src name : string) : ast.Node :=
  ast.Ident_ (span_nth k src name) (ident_nth k src name).

(** A field with one or more names, without comments or tag. *)
Definition field (src : string) (names : list string) (t : ast.Node) : ast.Field :=
  ast.mkField None (map (ident_of src) names) t None None.

(** A file of package [p] that imports nothing. *)
Definition file (src : string) (decls : list ast.Node) : ast.File :=
  {| ast.File_Name :=
       {| ast.NamePos := strings.Index src "package p" + 9; ast.Name := "p" |};
     ast.Decls := decls;
     ast.Imports := [] |}.

(** A declaration [type name struct { ... }] at the top of the file: a
    general declaration with one type specification. *)
Definition type_decl (src name : string) (t : ast.Node) : ast.Node :=
  ast.OtherNode
    {| ast.Pos := strings.Index src "type" + 1; ast.End_ := ast.End_ (ast.span t) |}
    [ast.TypeSpec
       {| ast.Pos := strings.Index src name + 1; ast.End_ := ast.End_ (ast.span t) |}
       (ident_of src name) t].

(** The struct type from the [k]-th [struct] to the [j]-th closing brace. *)
Definition struct_type (k j : nat) (src : string) (fields : list ast.Field) : ast.Node :=
  ast.StructType
    {| ast.Pos := index_nth k src "struct" + 1;
       ast.End_ := index_nth j src "}" + 2 |}
    fields.

(** Two names in one field entry. *)
Definition two_names_src : string := "package p

type Opts struct {
	A, B string
}
".

Definition two_names_entries : list ast.Field :=
  [field two_names_src ["A"; "B"] (named_type 0 two_names_src "string")].

Definition two_names : ast.File :=
  file two_names_src
    [type_decl two_names_src "Opts" (struct_type 0 0 two_names_src two_names_entries)].

(** A pointer to a struct type and the same struct type. *)
Definition pointer_src : string := "package p

type Opts struct {
	P *struct{ X int }
	V struct{ X int }
}
".

Definition pointer_P : ast.Field :=
  field pointer_src ["P"]
    (ast.StarExpr
       {| ast.Pos := strings.Index pointer_src "*" + 1;
          ast.End_ := index_nth 0 pointer_src "}" + 2 |}
       (struct_type 1 0 pointer_src
          [field pointer_src ["X"] (named_type 0 pointer_src "int")])).

Definition pointer_V : ast.Field :=
  field pointer_src ["V"]
    (struct_type 2 1 pointer_src
       [ast.mkField None [ident_nth 1 pointer_src "X"]
          (named_type 1 pointer_src "int") None None]).

Definition pointer : ast.File :=
  file pointer_src
    [type_decl pointer_src "Opts"
       (struct_type 0 2 pointer_src [pointer_P; pointer_V])].

(** No type of the wanted name. *)
Definition other_src : string := "package p

type Other struct {
	A string
}
".

Definition other : ast.File :=
  file other_src
    [type_decl other_src "Other"
       (struct_type 0 0 other_src
          [field other_src ["A"] (named_type 0 other_src "string")])].

(** An embedded field: a field entry without names. *)
Definition embedded_src : string := "package p

type Opts struct {
	io.Reader
}
".

Definition embedded_field : ast.Field :=
  field embedded_src []
    (* the selector expression, with its two identifiers *)
    (ast.OtherNode (span_of embedded_src "io.Reader")
       [named_type 0 embedded_src "io"; named_type 0 embedded_src "Reader"]).

Definition embedded : ast.File :=
  file embedded_src
    [type_decl embedded_src "Opts" (struct_type 0 0 embedded_src [embedded_field])].

(** A field with a doc comment, on the line before it. *)
Definition doc_src : string := "package p

type Opts struct {
	// All removes all images
	All *bool
}
".

Definition doc_field : ast.Field :=
  ast.mkField
    (Some {| ast.Text := "All removes all images
" |})
    [ident_nth 1 doc_src "All"]
    (ast.StarExpr (span_of doc_src "*bool") (named_type 0 doc_src "bool"))
    None None.

Definition doc : ast.File :=
  file doc_src [type_decl doc_src "Opts" (struct_type 0 0 doc_src [doc_field])].

(** The same field with the comment at the end of its line. *)
Definition line_src : string := "package p

type Opts struct {
	All *bool // All removes all images
}
".

Definition line_field : ast.Field :=
  ast.mkField None
    [ident_of line_src "All"]
    (ast.StarExpr (span_of line_src "*bool") (named_type 0 line_src "bool"))
    None
    (Some {| ast.Text := "All removes all images
" |}).

Definition line : ast.File :=
  file line_src [type_decl line_src "Opts" (struct_type 0 0 line_src [line_field])].

(** Two declarations of the wanted name: one at the top of the file, one
    in the body of a function. *)
Definition twice_src : string := "package p

type Opts struct {
	A string
}

func f() {
	type Opts struct {
		B string
	}
}
".

Definition twice : ast.File :=
  file twice_src
    [type_decl twice_src "Opts"
       (struct_type 0 0 twice_src
          [field twice_src ["A"] (named_type 0 twice_src "string")]);
     (* the function declaration: its name, its type, its body *)
     ast.OtherNode
       {| ast.Pos := strings.Index twice_src "func" + 1;
          ast.End_ := index_nth 2 twice_src "}" + 2 |}
       [ast.Ident_
          {| ast.Pos := strings.Index twice_src "f()" + 1;
             ast.End_ := strings.Index twice_src "f()" + 2 |}
          {| ast.NamePos := strings.Index twice_src "f()" + 1; ast.Name := "f" |};
        ast.OtherNode (span_of twice_src "func f()") [];
        (* the block, the declaration statement, the declaration *)
        ast.OtherNode
          {| ast.Pos := index_nth 1 twice_src "{" + 1;
             ast.End_ := index_nth 2 twice_src "}" + 2 |}
          [ast.OtherNode
             {| ast.Pos := index_nth 1 twice_src "type" + 1;
                ast.End_ := index_nth 1 twice_src "}" + 2 |}
             [ast.OtherNode
                {| ast.Pos := index_nth 1 twice_src "type" + 1;
                   ast.End_ := index_nth 1 twice_src "}" + 2 |}
                [ast.TypeSpec
                   {| ast.Pos := index_nth 1 twice_src "Opts" + 1;
                      ast.End_ := index_nth 1 twice_src "}" + 2 |}
                   (ident_nth 1 twice_src "Opts")
                   (struct_type 1 1 twice_src
                      [field twice_src ["B"] (named_type 1 twice_src "string")])]]]]].

Definition sources : list (string * ast.File) :=
  [(two_names_src, two_names); (pointer_src, pointer); (other_src, other);
   (embedded_src, embedded); (doc_src, doc); (line_src, line);
   (twice_src, twice)].

#[local] Instance tables : UnicodeTables := {| CaseRanges_lower r := r |}.

#[local] Instance platform : Platform := {|
  Platform_tables := tables;
  parser_ParseFile b :=
    match find (fun entry => String.eqb (fst entry) b) sources with
    | Some entry => inl (snd entry)
    | None => inr "1:1: expected 'package'"
    end;
  os_Create_error _ := None;
  exec_Run _ fs := (fs, None)
|}.

Definition env : gmap string string :=
  <["GOFILE" := "types.go"]> (<["GOPACKAGE" := "p"]> ∅).

Definition Args (target : string) : list string := ["generator"; target].

Definition files_with (src : string) : gmap string string :=
  <["types.go" := src]> ∅.

(** The run for the type [Opts] on a source. *)
Definition run (src : string) : Outcome * State :=
  main (Args "Opts") env (files_with src).

(** The generated file after the run. *)
Definition output (src : string) : string :=
  contents (files (snd (run src))) "types_opts.go".

End Examples.

(** *** Further vocabulary *)

(** All the bytes of [s] are in [cutset]. *)
Fixpoint all_in (cutset s : string) : bool :=
  match s with
  | EmptyString => true
  | String c t => strings.contains_byte cutset c && all_in cutset t
  end.

(** The last byte of [s], if there is one, is not in [cutset]. *)
Definition ends_outside (cutset s : string) : bool :=
  match rev_bytes s EmptyString with
  | String c _ => negb (strings.contains_byte cutset c)
  | EmptyString => true
  end.

(** [s] with its first instance of [old] replaced by [new]; [s] itself if
    [old] does not occur in it. *)
Fixpoint replace_first (old new s : string) : string :=
  match s with
  | EmptyString => if strings.HasPrefix s old then new else EmptyString
  | String c t =>
    if strings.HasPrefix s old
    then new +:+ drop_bytes (String.length old) s
    else String c (replace_first old new t)
  end.

(** The leading ASCII spaces of [s] removed. *)
Fixpoint drop_spaces (s : string) : string :=
  match s with
  | EmptyString => EmptyString
  | String c t => if strings.asciiSpace (byte_val c) then drop_spaces t else s
  end.

Definition starts_with_space (s : string) : bool :=
  match s with
  | String c _ => strings.asciiSpace (byte_val c)
  | EmptyString => false
  end.

Definition ends_with_space (s : string) : bool :=
  starts_with_space (rev_bytes s EmptyString).

Fixpoint all_space (s : string) : bool :=
  match s with
  | EmptyString => true
  | String c t => strings.asciiSpace (byte_val c) && all_space t
  end.

(** The first name of the entry is empty: the check of the name fails. *)
Definition empty_name (e : ast.Field) : bool :=
  match ast.Names e with
  | id :: _ => String.eqb (ast.Name id) EmptyString
  | [] => false
  end.

(** The panic of [field_step] on an entry that fails a check: the check of
    the name comes first, the bounds of the slice second. *)
Definition check_failure (e : ast.Field) : string :=
  if empty_name e then "bad name" else "slice bounds out of range".

(** What [main] has printed, by the outcome of the run: an exit comes
    with status 1 and one printed line, a return or a panic with nothing
    printed. *)
Definition reported (r : Outcome * State) : Prop :=
  match fst r with
  | Exited code => code = 1 /\ length (stdout (snd r)) = 1%nat
  | Returned | Panicked _ => stdout (snd r) = []
  end.

(** The file [out], if it was created, is closed, unless the process left
    through [os.Exit]; and the variable [closed] is set only when it is. *)
Definition released (r : Outcome * State) : Prop :=
  (closed (snd r) = true -> out_closed (snd r) = true) /\
  match fst r with
  | Exited _ => True
  | Returned | Panicked _ =>
    match out (snd r) with
    | Some _ => out_closed (snd r) = true
    | None => out_closed (snd r) = false
    end
  end.

(** Platforms on which one of the two commands fails, and a field entry
    that fails the check of its name. *)
Module Failing.


Definition fmt_error : string := "exit status 2".
Definition imports_error : string := "exec: goimports: executable file not found".

(** [go fmt] fails. *)
Definition go_fmt : Platform := {|
  Platform_tables := Examples.tables;
  parser_ParseFile := parser_ParseFile (Platform := Examples.platform);
  os_Create_error _ := None;
  exec_Run argv fs :=
    match argv with
    | "go" :: _ => (fs, Some fmt_error)
    | _ => (fs, None)
    end
|}.

(** [goimports] fails. *)
Definition goimports : Platform := {|
  Platform_tables := Examples.tables;
  parser_ParseFile := parser_ParseFile (Platform := Examples.platform);
  os_Create_error _ := None;
  exec_Run argv fs :=
    match argv with
    | "goimports" :: _ => (fs, Some imports_error)
    | _ => (fs, None)
    end
|}.

End Failing.

(** * Properties *)

(** ** Byte strings *)

Lemma append_cons (c : ascii) (s t : string) :
  String c s +:+ t = String c (s +:+ t).
Proof. reflexivity. Qed.

Lemma append_nil_r (s : string) : s +:+ "" = s.
Proof.
  induction s as [|c s IH]; [reflexivity |].
  now rewrite append_cons, IH.
Qed.

Lemma append_assoc (s1 s2 s3 : string) : (s1 +:+ s2) +:+ s3 = s1 +:+ (s2 +:+ s3).
Proof.
  induction s1 as [|c s1 IH]; [reflexivity |].
  now rewrite !append_cons, IH.
Qed.

Lemma join_app (l1 l2 : list string) : join (l1 ++ l2) = join l1 +:+ join l2.
Proof.
  induction l1 as [|x l1 IH]; simpl; [reflexivity |].
  now rewrite IH, append_assoc.
Qed.

Lemma join_concat {A} (w : A -> list string) (l : list A) :
  join (concat (map w l)) = join (map (fun x => join (w x)) l).
Proof.
  induction l as [|x l IH]; simpl; [reflexivity |].
  now rewrite join_app, IH.
Qed.

(** ** The template *)

Lemma Parse_bodyTmpl : template.Parse bodyTmpl = Some body_nodes.
Proof. vm_compute. reflexivity. Qed.

Lemma walkRange_map {A} (g : A -> template.Value)
    (body : template.Value -> template.Writes) (w : A -> list string) (l : list A) :
  (forall x, body (g x) = (w x, None)) ->
  template.walkRange body (map g l) = (concat (map w l), None).
Proof.
  intros Hbody. induction l as [|x l IH]; simpl; [reflexivity |].
  now rewrite Hbody, IH.
Qed.

Lemma walk_fields_nodes (f : fieldStruct) vars :
  template.walkList (template.walk (fieldStruct_value f) vars) fields_nodes
  = (method_writes f, None).
Proof.
  destruct f as [c comp n sn t].
  destruct c as [|a c]; destruct comp; reflexivity.
Qed.

Lemma walk_imports_nodes (i : string) vars :
  template.walkList
    (template.walk (template.Str i) (("$import", template.Str i) :: vars))
    imports_nodes
  = (["	"; i; "
"], None).
Proof. reflexivity. Qed.

Lemma execute_unfold (bs : bodyStruct) :
  let data := bodyStruct_value bs in
  let vars := [("$", data)] in
  template.execute body_nodes data =
  template.then_ (["// Code generated by go generate; DO NOT EDIT.
package "; PackageName bs; "

import (
"], None)
   (template.then_
     (template.walkRange
        (fun v => template.walkList
                    (template.walk v (("$import", v) :: vars)) imports_nodes)
        (map template.Str (Imports bs)))
     (template.then_ (["
)

// Changed returns true if named field has been set
func (o *"; body_StructName bs; ") Changed(fieldName string) bool {
	return util.Changed(o, fieldName)
}

// ToParams formats struct fields to be passed to API service
func (o *"; body_StructName bs; ") ToParams() (url.Values, error) {
	return util.ToParams(o)
}

"], None)
     (template.then_
       (template.walkRange
          (fun v => template.walkList
                      (template.walk v (("$field", v) :: vars)) fields_nodes)
          (map fieldStruct_value (Fields bs)))
       (["
"], None)))).
Proof. destruct bs. reflexivity. Qed.

Lemma execute_body (bs : bodyStruct) :
  template.execute body_nodes (bodyStruct_value bs) =
  ((header_writes bs ++ concat (map method_writes (Fields bs)) ++ ["
"])%list, None).
Proof.
  rewrite execute_unfold. cbv zeta.
  rewrite (walkRange_map template.Str _ (fun i => ["	"; i; "
"])) by (intros; apply walk_imports_nodes).
  rewrite (walkRange_map fieldStruct_value _ method_writes)
    by (intros; apply walk_fields_nodes).
  unfold template.then_, header_writes. cbn [fst snd].
  rewrite <- !app_assoc. reflexivity.
Qed.

Lemma join_method_writes (f : fieldStruct) :
  join (method_writes f) = With_method f +:+ Get_method f.
Proof.
  unfold method_writes, With_method, Get_method, With_doc, Get_doc, doc_or.
  destruct (String.eqb (Comment f) ""), (Composite f);
    rewrite ?join_app; unfold join; cbn [fold_right];
    rewrite ?append_assoc, ?append_nil_r; reflexivity.
Qed.

Lemma join_header_writes (bs : bodyStruct) :
  join (header_writes bs) = header bs.
Proof.
  unfold header_writes, header.
  rewrite !join_app, join_concat. unfold join at 1 3; cbn [fold_right].
  rewrite ?append_assoc, ?append_nil_r.
  reflexivity.
Qed.

Lemma join_map_methods (l : list fieldStruct) :
  join (map (fun f => join (method_writes f)) l) = methods l.
Proof.
  unfold methods.
  induction l as [|f l IH]; [reflexivity |].
  change (join (method_writes f) +:+ join (map (fun f => join (method_writes f)) l) =
          (With_method f +:+ Get_method f) +:+
          join (map (fun f => With_method f +:+ Get_method f) l)).
  now rewrite join_method_writes, IH.
Qed.

(** The execution of the template writes the text [generated], in at least
    one write, and ends without an error. *)
Lemma execute_body_generated (bs : bodyStruct) :
  exists w ws,
    template.execute body_nodes (bodyStruct_value bs) = (w :: ws, None) /\
    join (w :: ws) = generated bs.
Proof.
  rewrite execute_body.
  eexists _, _. split; [reflexivity |].
  change (join (header_writes bs ++ concat (map method_writes (Fields bs)) ++ ["
"]) = generated bs).
  unfold generated.
  rewrite !join_app, join_header_writes, join_concat, join_map_methods.
  reflexivity.
Qed.

Lemma methods_app (l1 l2 : list fieldStruct) :
  methods (l1 ++ l2) = methods l1 +:+ methods l2.
Proof. unfold methods. now rewrite map_app, join_app. Qed.

(** ** The walk of the syntax tree *)

Section Node_induction.
Variables (P : ast.Node -> Prop).
Hypotheses
  (HIdent : forall sp id, P (ast.Ident_ sp id))
  (HStar : forall sp x, P x -> P (ast.StarExpr sp x))
  (HArray : forall sp l elt,
      match l with Some x => P x | None => True end ->
      P elt -> P (ast.ArrayType sp l elt))
  (HMap : forall sp k v, P k -> P v -> P (ast.MapType sp k v))
  (HStruct : forall sp fields,
      Forall (fun fld => P (ast.Type_ fld)) fields ->
      P (ast.StructType sp fields))
  (HTypeSpec : forall sp name t, P t -> P (ast.TypeSpec sp name t))
  (HOther : forall sp cs, Forall P cs -> P (ast.OtherNode sp cs)).

(** Induction on the nodes of the tree, through the fields of the struct
    types and the lists of children. *)
Lemma Node_induction : forall n, P n.
Proof.
  fix IH 1. intros [sp id|sp x|sp l elt|sp k v|sp fields|sp name t|sp cs].
  - apply HIdent.
  - apply HStar, IH.
  - apply HArray; [destruct l; [apply IH | exact I] | apply IH].
  - apply HMap; apply IH.
  - apply HStruct. induction fields as [|[doc names t tag comment] fields IHf].
    + constructor.
    + constructor; [apply IH | exact IHf].
  - apply HTypeSpec, IH.
  - apply HOther. induction cs as [|c cs IHc].
    + constructor.
    + constructor; [apply IH | exact IHc].
Qed.

End Node_induction.

Section Walk_visits.
Context {St : Type} (f : ast.Visited -> M St bool).

Lemma visit_all_cons v vs s :
  visit_all f (v :: vs) s = and_then (f v s) (visit_all f vs).
Proof.
  unfold visit_all, for_range, bind, and_then.
  destruct (f v s) as [[d|e] s']; reflexivity.
Qed.

Lemma visit_all_app vs1 vs2 s :
  visit_all f (vs1 ++ vs2) s = and_then (visit_all f vs1 s) (visit_all f vs2).
Proof.
  revert s. induction vs1 as [|v vs1 IH]; intros s; [reflexivity |].
  rewrite <- app_comm_cons, !visit_all_cons.
  destruct (f v s) as [[d|e] s']; cbn [and_then]; [apply IH | reflexivity].
Qed.

Lemma bind_and_then {A} (m : M St A) (k : M St unit) s :
  (m;; k) s = and_then (m s) k.
Proof. reflexivity. Qed.

Lemma and_then_ext {A} (r : Res A * St) (k1 k2 : St -> Res unit * St) :
  (forall s, k1 s = k2 s) -> and_then r k1 = and_then r k2.
Proof. intros Hk. destruct r as [[a|e] s]; [apply Hk | reflexivity]. Qed.

Lemma and_then_congr {A} (r1 r2 : Res A * St) (k1 k2 : St -> Res unit * St) :
  r1 = r2 -> (forall s, k1 s = k2 s) -> and_then r1 k1 = and_then r2 k2.
Proof. intros ->. apply and_then_ext. Qed.

Lemma visit_all_one v s : visit_all f [v] s = and_then (f v s) done_.
Proof. rewrite visit_all_cons. reflexivity. Qed.

Lemma visit_nil_done s : (_ <- f ast.VNil;; ret tt) s = visit_all f [ast.VNil] s.
Proof.
  rewrite visit_all_one. unfold bind, and_then, done_, ret.
  destruct (f ast.VNil s) as [[d|e] s']; reflexivity.
Qed.

Hypothesis Hf : descends f.

Lemma walkLeaf_visits v s : ast.walkLeaf f v s = visit_all f [v; ast.VNil] s.
Proof.
  unfold ast.walkLeaf. rewrite visit_all_cons. unfold bind at 1. unfold and_then.
  destruct (f v s) as [[d|e] s'] eqn:E; [| reflexivity].
  rewrite (Hf _ _ _ _ E). apply visit_nil_done.
Qed.

Lemma walkOpt_leaf_visits {A} (inj : A -> ast.Visited) (o : option A) s :
  ast.walkOpt (fun a => ast.walkLeaf f (inj a)) o s =
  visit_all f (match o with Some a => [inj a; ast.VNil] | None => [] end) s.
Proof. destruct o; [apply walkLeaf_visits | reflexivity]. Qed.

Lemma for_range_visits {A} (w : A -> M St unit) (vis : A -> list ast.Visited)
    (l : list A) :
  Forall (fun x => forall s, w x s = visit_all f (vis x) s) l ->
  forall s, for_range l w s = visit_all f (concat (map vis l)) s.
Proof.
  induction 1 as [|x l Hx _ IH]; intros s; [reflexivity |].
  cbn [map concat]. rewrite visit_all_app.
  change (for_range (x :: l) w s) with ((w x;; for_range l w) s).
  rewrite bind_and_then. apply and_then_congr; [apply Hx | apply IH].
Qed.

(** A visit of a node that has children: the node, the children, [nil]. *)
Lemma visit_shape (v : ast.Visited) (c : M St unit) s :
  (d <- f v;; if d then (c;; _ <- f ast.VNil;; ret tt) else ret tt) s =
  and_then (f v s) (fun s1 => and_then (c s1) (visit_all f [ast.VNil])).
Proof.
  unfold bind at 1. unfold and_then at 1.
  destruct (f v s) as [[d|e] s1] eqn:E; [| reflexivity].
  rewrite (Hf _ _ _ _ E), bind_and_then.
  apply and_then_ext, visit_nil_done.
Qed.

Lemma Walk_shape n s :
  ast.Walk f n s =
  and_then (f (ast.VNode n) s) (fun s1 =>
  and_then (walkChildren f n s1) (visit_all f [ast.VNil])).
Proof. destruct n; apply visit_shape. Qed.

Lemma WalkField_visits (fld : ast.Field) :
  (forall s, ast.Walk f (ast.Type_ fld) s = visit_all f (ast.visits (ast.Type_ fld)) s) ->
  forall s, ast.WalkField f fld s = visit_all f (ast.visitsField fld) s.
Proof.
  destruct fld as [doc names t tag comment]. cbn [ast.Type_]. intros Ht s.
  change (ast.WalkField f (ast.mkField doc names t tag comment) s) with
    ((d <- f (ast.VField (ast.mkField doc names t tag comment));;
      if d then
        ((ast.walkOpt (fun g => ast.walkLeaf f (ast.VCommentGroup g)) doc;;
          for_range names (fun id => ast.walkLeaf f (ast.VIdent id));;
          ast.Walk f t;;
          ast.walkOpt (fun l => ast.walkLeaf f (ast.VBasicLit l)) tag;;
          ast.walkOpt (fun g => ast.walkLeaf f (ast.VCommentGroup g)) comment);;
         _ <- f ast.VNil;; ret tt)
      else ret tt) s).
  rewrite visit_shape. cbn [ast.visitsField].
  rewrite visit_all_cons. apply and_then_ext; intros s1.
  rewrite visit_all_app. apply and_then_congr; [| reflexivity].
  rewrite visit_all_app, bind_and_then.
  apply and_then_congr; [apply walkOpt_leaf_visits |]. intros s2.
  rewrite visit_all_app, bind_and_then.
  apply and_then_congr.
  { apply (for_range_visits _ (fun id => [ast.VIdent id; ast.VNil])).
    apply Forall_forall. intros id _ s'. apply walkLeaf_visits. }
  intros s3. rewrite visit_all_app, bind_and_then.
  apply and_then_congr; [apply Ht |]. intros s4.
  rewrite visit_all_app, bind_and_then.
  apply and_then_congr; [apply walkOpt_leaf_visits |]. intros s5.
  apply walkOpt_leaf_visits.
Qed.

(** The walk of a node calls the visitor on [visits], in order. *)
Lemma Walk_visits (n : ast.Node) :
  forall s, ast.Walk f n s = visit_all f (ast.visits n) s.
Proof.
  induction n using Node_induction; intros s.
  all: rewrite Walk_shape; cbn [ast.visits walkChildren];
       rewrite visit_all_cons; apply and_then_ext; intros s1;
       rewrite visit_all_app; (apply and_then_congr; [| reflexivity]).
  - reflexivity.
  - apply IHn.
  - rewrite visit_all_app, bind_and_then.
    destruct l as [n0|]; cbn [ast.walkOpt].
    + apply and_then_congr; [apply H | apply IHn].
    + cbn [and_then ret]. apply IHn.
  - rewrite visit_all_app, bind_and_then.
    apply and_then_congr; [apply IHn1 | apply IHn2].
  - rewrite visit_all_cons. unfold bind at 1.
    destruct (f (ast.VFieldList fields) s1) as [[d|e] s2] eqn:E; [| reflexivity].
    rewrite (Hf _ _ _ _ E). cbn [and_then].
    rewrite visit_all_app, bind_and_then.
    apply and_then_congr; [| apply visit_nil_done].
    apply (for_range_visits _ ast.visitsField).
    eapply Forall_impl; [eassumption |].
    intros fld Hfld. apply WalkField_visits, Hfld.
  - rewrite visit_all_app, bind_and_then.
    apply and_then_congr; [apply walkLeaf_visits | apply IHn].
  - apply (for_range_visits _ ast.visits). assumption.
Qed.

(** [ast.Inspect] calls the visitor on [visitsFile], in order. *)
Lemma Inspect_visits (file : ast.File) s :
  ast.Inspect f file s = visit_all f (ast.visitsFile file) s.
Proof.
  unfold ast.Inspect, ast.visitsFile. rewrite visit_all_cons. unfold bind at 1.
  destruct (f (ast.VFile file) s) as [[d|e] s1] eqn:E; [| reflexivity].
  rewrite (Hf _ _ _ _ E). cbn [and_then].
  rewrite visit_all_app, bind_and_then.
  apply and_then_congr; [apply walkLeaf_visits |]. intros s2.
  rewrite visit_all_app, bind_and_then.
  apply and_then_congr; [| apply visit_nil_done].
  apply (for_range_visits _ ast.visits).
  apply Forall_forall. intros n _. apply Walk_visits.
Qed.

End Walk_visits.

(** ** The generator *)

Lemma len_lt_1 (s : string) : (len s <? 1) = String.eqb s "".
Proof.
  destruct s as [|c s]; [reflexivity |].
  unfold len. cbn [String.length String.eqb].
  apply Z.ltb_ge. lia.
Qed.

Section generator.
Context `{Platform}.
Variables (target b : string) (imports : list string) (pkg : string).

Let step := field_step target b.
Let G := generate target b imports pkg body_nodes.
Let I := inspector target b imports pkg body_nodes.

Lemma named_checks (e : ast.Field) :
  named e = true -> type_in_source b e = true -> checks b e = true.
Proof.
  unfold named, checks. intros Hn ->.
  destruct (ast.Names e); [discriminate | now rewrite Hn].
Qed.

Lemma bounds_type_in_source (e : ast.Field) :
  let sp := ast.span (ast.Type_ e) in
  (0 <=? ast.Pos sp - 1) && (ast.Pos sp - 1 <=? ast.End_ sp - 1) &&
  (ast.End_ sp - 1 <=? len b) = type_in_source b e.
Proof.
  cbv zeta. unfold type_in_source.
  apply eq_true_iff_eq. rewrite !andb_true_iff, !Z.leb_le. lia.
Qed.

(** An entry that passes the checks adds its descriptor. *)
Lemma field_step_ok (e : ast.Field) (s : State) :
  checks b e = true ->
  step e s =
  (Val tt, set_fieldStructs (fun l => (l ++ [fieldStruct_of target b e])%list) s).
Proof.
  unfold checks. intros [Hname Hsrc]%andb_true_iff.
  unfold step, field_step, field_name, bind.
  rewrite bounds_type_in_source, Hsrc. cbn [negb].
  unfold fieldStruct_of, first_name, type_text.
  destruct (ast.Names e) as [|id ids].
  - reflexivity.
  - rewrite len_lt_1. apply negb_true_iff in Hname. rewrite Hname. reflexivity.
Qed.

(** An entry that fails a check panics, and changes nothing. *)
Lemma field_step_panics (e : ast.Field) (s : State) :
  checks b e = false -> exists msg, step e s = (Stop (Panic msg), s).
Proof.
  unfold checks. intros Hc.
  unfold step, field_step, field_name, bind.
  rewrite bounds_type_in_source.
  destruct (ast.Names e) as [|id ids].
  - cbn [andb] in Hc. rewrite Hc. eexists. reflexivity.
  - rewrite len_lt_1.
    destruct (String.eqb (ast.Name id) "") eqn:En; cbn [negb andb] in Hc.
    + eexists. reflexivity.
    + rewrite Hc. eexists. reflexivity.
Qed.

Lemma add_fields_nil (s : State) : add_fields [] s = s.
Proof. destruct s. unfold add_fields, set_fieldStructs. cbn. now rewrite app_nil_r. Qed.

Lemma add_fields_app (l1 l2 : list fieldStruct) (s : State) :
  add_fields l2 (add_fields l1 s) = add_fields (l1 ++ l2) s.
Proof. destruct s. unfold add_fields, set_fieldStructs. cbn. now rewrite app_assoc. Qed.

(** The loop over entries that all pass the checks adds their descriptors,
    in order. *)
Lemma for_range_field_step_ok (entries : list ast.Field) (s : State) :
  forallb (checks b) entries = true ->
  for_range entries step s =
  (Val tt, add_fields (map (fieldStruct_of target b) entries) s).
Proof.
  revert s. induction entries as [|e entries IH]; intros s Hall.
  - cbn. now rewrite add_fields_nil.
  - cbn [forallb] in Hall. apply andb_true_iff in Hall as [He Hall].
    change (for_range (e :: entries) step s) with
      ((step e;; for_range entries step) s).
    unfold bind. rewrite (field_step_ok e s He), (IH _ Hall).
    cbn [map]. fold (add_fields [fieldStruct_of target b e] s).
    now rewrite add_fields_app.
Qed.

(** The loop over the entries either adds descriptors or panics; it leaves
    the rest of the state as it is. *)
Lemma for_range_field_step_frame (entries : list ast.Field) (s : State) :
  exists r l, for_range entries step s = (r, add_fields l s) /\
    (r = Val tt \/ exists msg, r = Stop (Panic msg)).
Proof.
  revert s. induction entries as [|e entries IH]; intros s.
  - exists (Val tt), []. rewrite add_fields_nil. split; [reflexivity | now left].
  - change (for_range (e :: entries) step s) with
      ((step e;; for_range entries step) s).
    unfold bind. destruct (checks b e) eqn:He.
    + rewrite (field_step_ok e s He).
      fold (add_fields [fieldStruct_of target b e] s).
      destruct (IH (add_fields [fieldStruct_of target b e] s)) as (r & l & -> & Hr).
      exists r, ([fieldStruct_of target b e] ++ l)%list.
      now rewrite add_fields_app.
    + destruct (field_step_panics e s He) as [msg ->].
      exists (Stop (Panic msg)), []. rewrite add_fields_nil.
      split; [reflexivity | right; eauto].
Qed.


(** *** The function passed to [ast.Inspect] *)

Lemma yields_true_ret {St} : yields_true (St:=St) (ret true).
Proof. intros s d s' [= <- _]. reflexivity. Qed.

Lemma yields_true_panic {St} msg : yields_true (St:=St) (panic msg).
Proof. intros s d s' [=]. Qed.

Lemma yields_true_exit {St} code : yields_true (St:=St) (os_Exit code).
Proof. intros s d s' [=]. Qed.

Lemma yields_true_bind {St A} (m : M St A) (k : A -> M St bool) :
  (forall a, yields_true (k a)) -> yields_true (bind m k).
Proof.
  intros Hk s d s'. unfold bind.
  destruct (m s) as [[a|e] s1]; [apply Hk | intros [=]].
Qed.

Ltac yields_true :=
  repeat first
    [ apply yields_true_ret | apply yields_true_panic | apply yields_true_exit
    | apply yields_true_bind; intros
    | match goal with
      | |- yields_true (match ?x with _ => _ end) => destruct x
      end ].

Lemma generate_yields_true (t : ast.Node) : yields_true (G t).
Proof. unfold G, generate. destruct t; cbv zeta; yields_true. Qed.

Lemma inspector_descends : descends I.
Proof.
  intros v. change (yields_true (I v)). unfold I, inspector.
  destruct v as [n| | | | | | |]; try apply yields_true_ret.
  destruct n; try apply yields_true_ret.
  destruct (negb _); [apply yields_true_ret | apply generate_yields_true].
Qed.

(** The visits come down to the generation for the declarations named
    [target], in order. *)
Lemma visit_all_declared (vs : list ast.Visited) (s : State) :
  visit_all I vs s =
  for_range (ast.declared target vs) (fun t => _ <- G t;; ret tt) s.
Proof.
  revert s. induction vs as [|v vs IH]; intros s; [reflexivity |].
  rewrite visit_all_cons.
  assert (Hskip : forall s, I v s = (Val true, s) ->
            ast.declared target (v :: vs) = ast.declared target vs ->
            and_then (I v s) (visit_all I vs) =
            for_range (ast.declared target (v :: vs)) (fun t => _ <- G t;; ret tt) s).
  { intros s0 -> ->. apply IH. }
  destruct v as [n| | | | | | |]; try (apply Hskip; reflexivity).
  destruct n as [| | | | |sp id t|]; try (apply Hskip; reflexivity).
  destruct (String.eqb (ast.Name id) target) eqn:En.
  - change (I (ast.VNode (ast.TypeSpec sp id t)) s) with
      ((if negb (String.eqb (ast.Name id) target) then ret true else G t) s).
    change (ast.declared target (ast.VNode (ast.TypeSpec sp id t) :: vs)) with
      (match (if String.eqb (ast.Name id) target then Some t else None) with
       | Some y => y :: ast.declared target vs
       | None => ast.declared target vs
       end).
    rewrite En. cbn [negb].
    change (for_range (t :: ast.declared target vs) (fun t => _ <- G t;; ret tt) s)
      with (((_ <- G t;; ret tt);;
             for_range (ast.declared target vs) (fun t => _ <- G t;; ret tt)) s).
    unfold bind, and_then. destruct (G t s) as [[d|e] s1]; [apply IH | reflexivity].
  - apply Hskip.
    + change (I (ast.VNode (ast.TypeSpec sp id t)) s) with
        ((if negb (String.eqb (ast.Name id) target) then ret true else G t) s).
      now rewrite En.
    + change (ast.declared target (ast.VNode (ast.TypeSpec sp id t) :: vs)) with
        (match (if String.eqb (ast.Name id) target then Some t else None) with
         | Some y => y :: ast.declared target vs
         | None => ast.declared target vs
         end).
      now rewrite En.
Qed.

(** The search of the tree is the generation for each declaration named
    [target], in the order of the walk. *)
Lemma Inspect_declared (f : ast.File) (s : State) :
  ast.Inspect I f s =
  for_range (ast.declared target (ast.visitsFile f)) (fun t => _ <- G t;; ret tt) s.
Proof.
  rewrite (Inspect_visits I inspector_descends). apply visit_all_declared.
Qed.

(** *** The generation for one declaration *)

(** A declaration that is not a struct type: the type assertion panics. *)
Lemma generate_not_struct (t : ast.Node) (s : State) :
  (forall sp entries, t <> ast.StructType sp entries) ->
  G t s = (Stop (Panic "interface conversion: ast.Expr is not *ast.StructType"), s).
Proof.
  intros Ht. unfold G, generate.
  destruct t; try reflexivity. now destruct (Ht sp Fields0).
Qed.

(** A struct type whose entries pass the checks, while [out] is open: the
    descriptors are added, the text is appended to the file, the file is
    closed and the two commands are run. *)
Lemma generate_open sp (entries : list ast.Field) (s : State) (path : string) :
  out s = Some path -> out_closed s = false ->
  forallb (checks b) entries = true ->
  let F := (fieldStructs s ++ map (fieldStruct_of target b) entries)%list in
  let bs := {| PackageName := pkg; Imports := imports;
               body_StructName := target; Fields := F |} in
  let fs0 := <[path := contents (files s) path +:+ generated bs]> (files s) in
  G (ast.StructType sp entries) s =
  let '(fs1, err1) := exec_Run ["go"; "fmt"; path] fs0 in
  match err1 with
  | Some e => (Stop (Exit 1), rendered path F fs1 (stdout s ++ [e]))
  | None =>
    let '(fs2, err2) := exec_Run ["goimports"; "-w"; path] fs1 in
    match err2 with
    | Some e => (Stop (Exit 1), rendered path F fs2 (stdout s ++ [e]))
    | None => (Val true, rendered path F fs2 (stdout s))
    end
  end.
Proof.
  intros Hout Hopen Hall.
  destruct s as [fs lines o oc c F0]. cbn in Hout, Hopen. subst o oc.
  cbn [files stdout out out_closed closed fieldStructs].
  set (F := (F0 ++ map (fieldStruct_of target b) entries)%list).
  set (bs := {| PackageName := pkg; Imports := imports;
                body_StructName := target; Fields := F |}).
  unfold G, generate. unfold bind at 1.
  change (field_step target b) with step.
  rewrite (for_range_field_step_ok entries _ Hall).
  unfold add_fields, set_fieldStructs. cbn [files stdout out out_closed closed fieldStructs].
  unfold bind at 1. unfold get at 1. cbn [fieldStructs].
  destruct (execute_body_generated bs) as (w & ws & Hex & Hjoin).
  unfold bind at 1. unfold body_Execute at 1. unfold bind at 1. unfold get at 1.
  fold F. fold bs. rewrite Hex. cbn [out_closed]. rewrite Hjoin.
  unfold out_Name, out_Close, exec_Command_Run, fmt_Println, os_Exit,
    modify, get, ret, set_files, set_closed, set_out_closed, set_stdout, rendered.
  unfold bind.
  cbn [files stdout out out_closed closed fieldStructs default from_option id].
  destruct (exec_Run ["go"; "fmt"; path] _) as [fs1 [e1|]];
    cbn [files stdout out out_closed closed fieldStructs default from_option id];
    [reflexivity |].
  destruct (exec_Run ["goimports"; "-w"; path] fs1) as [fs2 [e2|]]; reflexivity.
Qed.

(** The generation while [out] is closed writes to no file and stops the
    process: with a panic if the declaration is not a struct type or an
    entry fails a check, else with exit status 1, once the write to the
    closed file has failed. *)
Lemma generate_closed (t : ast.Node) (s : State) :
  out_closed s = true ->
  exists e s', G t s = (Stop e, s') /\ files s' = files s /\
    (e = Exit 1 \/ exists msg, e = Panic msg).
Proof.
  intros Hclosed. unfold G, generate.
  destruct t as [| | | |sp entries| |];
    try (eexists _, _; split; [reflexivity | split; [reflexivity | right; eauto]]).
  unfold bind at 1. change (field_step target b) with step.
  destruct (for_range_field_step_frame entries s) as (r & l & -> & [-> | [msg ->]]).
  - destruct s as [fs lines o oc c F0]. cbn in Hclosed. subst oc.
    unfold add_fields, set_fieldStructs.
    cbn [files stdout out out_closed closed fieldStructs].
    unfold bind at 1. unfold get at 1. cbn [fieldStructs].
    set (bs := {| PackageName := pkg; Imports := imports;
                  body_StructName := target; Fields := (F0 ++ l)%list |}).
    destruct (execute_body_generated bs) as (w & ws & Hex & _).
    unfold bind at 1. unfold body_Execute at 1. unfold bind at 1. unfold get at 1.
    rewrite Hex. cbn [out_closed].
    eexists _, _. split; [reflexivity | split; [reflexivity | now left]].
  - eexists _, _. split; [reflexivity |]. split; [| right; eauto].
    destruct s; reflexivity.
Qed.

(** After a generation that stops the process, nothing more is generated;
    after one that writes to no file, in a state where [out] is closed,
    neither. *)
Lemma for_range_generate_closed (ts : list ast.Node) (s : State) :
  out_closed s = true ->
  exists r s', for_range ts (fun t => _ <- G t;; ret tt) s = (r, s') /\
    files s' = files s /\
    (ts = [] /\ r = Val tt /\ s' = s \/
     ts <> [] /\ (r = Stop (Exit 1) \/ exists msg, r = Stop (Panic msg))).
Proof.
  intros Hclosed. destruct ts as [|t ts].
  - exists (Val tt), s. split; [reflexivity |]. split; [reflexivity |]. now left.
  - destruct (generate_closed t s Hclosed) as (e & s' & HG & Hfiles & He).
    exists (Stop e), s'.
    change (for_range (t :: ts) (fun t => _ <- G t;; ret tt) s) with
      (((_ <- G t;; ret tt);; for_range ts (fun t => _ <- G t;; ret tt)) s).
    unfold bind. rewrite HG. split; [reflexivity |]. split; [exact Hfiles |].
    right. split; [discriminate |].
    destruct He as [-> | [msg ->]]; [now left | right; eauto].
Qed.


(** A declaration that stops before the rendering panics, and leaves the
    files as they are. *)
Lemma generate_stops_before_rendering (t : ast.Node) (s : State) :
  stops_before_rendering b t = true ->
  exists msg s', G t s = (Stop (Panic msg), s') /\ files s' = files s.
Proof.
  intros Hstop. destruct t as [| | | |sp entries| |];
    try (eexists _, _; split; reflexivity).
  cbn [stops_before_rendering] in Hstop. apply negb_true_iff in Hstop.
  unfold G, generate. unfold bind at 1. change (field_step target b) with step.
  assert (Hloop : exists msg l,
            for_range entries step s = (Stop (Panic msg), add_fields l s)).
  { clear G I. revert s. induction entries as [|e entries IH]; intros s; [discriminate |].
    change (for_range (e :: entries) step s) with
      ((step e;; for_range entries step) s).
    unfold bind. cbn [forallb] in Hstop.
    destruct (checks b e) eqn:He.
    - rewrite (field_step_ok e s He).
      fold (add_fields [fieldStruct_of target b e] s).
      destruct (IH Hstop (add_fields [fieldStruct_of target b e] s)) as (msg & l & ->).
      exists msg, ([fieldStruct_of target b e] ++ l)%list.
      now rewrite add_fields_app.
    - destruct (field_step_panics e s He) as [msg ->].
      exists msg, []. now rewrite add_fields_nil. }
  destruct Hloop as (msg & l & ->).
  eexists _, _. split; [reflexivity |]. destruct s; reflexivity.
Qed.

(** A struct type whose entries pass the checks, while [out] is closed: the
    write fails, the error is printed and the process exits with status
    1. *)
Lemma generate_closed_struct sp (entries : list ast.Field) (s : State) :
  out_closed s = true ->
  forallb (checks b) entries = true ->
  G (ast.StructType sp entries) s =
  (Stop (Exit 1),
   set_stdout
     (fun l => (l ++ ["write " +:+ default "" (out s) +:+ ": file already closed"])%list)
     (add_fields (map (fieldStruct_of target b) entries) s)).
Proof.
  intros Hclosed Hall. unfold G, generate. unfold bind at 1.
  change (field_step target b) with step.
  rewrite (for_range_field_step_ok entries _ Hall).
  destruct s as [fs lines o oc c F0]. cbn in Hclosed. subst oc.
  unfold add_fields, set_fieldStructs.
  cbn [files stdout out out_closed closed fieldStructs].
  unfold bind at 1. unfold get at 1. cbn [fieldStructs].
  set (bs := {| PackageName := pkg; Imports := imports; body_StructName := target;
                Fields := (F0 ++ map (fieldStruct_of target b) entries)%list |}).
  destruct (execute_body_generated bs) as (w & ws & Hex & _).
  unfold bind at 1. unfold body_Execute at 1. unfold bind at 1. unfold get at 1.
  rewrite Hex. cbn [out_closed]. reflexivity.
Qed.

End generator.

(** ** Runs *)

Lemma contents_insert (fs : gmap string string) (path text : string) :
  contents (<[path := text]> fs) path = text.
Proof. unfold contents. now rewrite lookup_insert_eq. Qed.

Section runs.
Context `{Platform}.
Variables (Args : list string) (env fs : gmap string string)
          (target b : string) (f : ast.File).
Hypothesis Hrun : searches Args env fs target b f.

Let path := out_path (os_Getenv env "GOFILE") target.
Let G := generate target b (imports_of f) (os_Getenv env "GOPACKAGE") body_nodes.

(** A run that reaches the search of the tree: the file [out] is created,
    empty, and the search is the generation for each declaration named
    [target], in the order of the walk. *)
Lemma main_body_search :
  main_body Args env (initial fs) =
  for_range (ast.declared target (ast.visitsFile f)) (fun t => _ <- G t;; ret tt)
    (searching path fs).
Proof.
  destruct Hrun as ((Harg & Hread & Hparse) & Hcreate).
  destruct Args as [|a0 [|name more]]; try discriminate.
  injection Harg as ->.
  unfold G.
  rewrite <- (Inspect_declared target b (imports_of f) (os_Getenv env "GOPACKAGE")).
  set (search := ast.Inspect _ f).
  unfold main_body. unfold bind at 1. unfold ioutil_ReadFile, bind, get.
  unfold initial at 1. cbn [files]. rewrite Hread. unfold ret at 1.
  rewrite Hparse. unfold os_Create. rewrite Hcreate.
  unfold bind, modify, ret. rewrite Parse_bodyTmpl. reflexivity.
Qed.

Lemma files_deferred (s : State) : files (deferred s) = files s.
Proof. unfold deferred. destruct (out s), (closed s); reflexivity. Qed.

Lemma stdout_deferred (s : State) : stdout (deferred s) = stdout s.
Proof. unfold deferred. destruct (out s), (closed s); reflexivity. Qed.

(** The run, from the search on. *)
Lemma main_search :
  main Args env fs =
  match for_range (ast.declared target (ast.visitsFile f))
          (fun t => _ <- G t;; ret tt) (searching path fs) with
  | (Val _, s) => (Returned, deferred s)
  | (Stop (Panic msg), s) => (Panicked msg, deferred s)
  | (Stop (Exit code), s) => (Exited code, s)
  end.
Proof. unfold main. now rewrite main_body_search. Qed.

(** The search when the first declaration named [target] is a struct type
    whose entries pass the checks: the text is rendered into the empty file
    and the two commands are run; the later declarations are reached if both
    commands succeed. *)
Lemma search_first_struct sp (entries : list ast.Field) (rest : list ast.Node) :
  ast.declared target (ast.visitsFile f) = ast.StructType sp entries :: rest ->
  forallb (checks b) entries = true ->
  let F := map (fieldStruct_of target b) entries in
  let bs := {| PackageName := os_Getenv env "GOPACKAGE"; Imports := imports_of f;
               body_StructName := target; Fields := F |} in
  for_range (ast.declared target (ast.visitsFile f))
    (fun t => _ <- G t;; ret tt) (searching path fs) =
  let '(fs1, err1) := exec_Run ["go"; "fmt"; path] (<[path := generated bs]> fs) in
  match err1 with
  | Some e => (Stop (Exit 1), rendered path F fs1 [e])
  | None =>
    let '(fs2, err2) := exec_Run ["goimports"; "-w"; path] fs1 in
    match err2 with
    | Some e => (Stop (Exit 1), rendered path F fs2 [e])
    | None => for_range rest (fun t => _ <- G t;; ret tt) (rendered path F fs2 [])
    end
  end.
Proof.
  intros -> Hall F bs.
  change (for_range (ast.StructType sp entries :: rest)
            (fun t => _ <- G t;; ret tt) (searching path fs))
    with (((_ <- G (ast.StructType sp entries);; ret tt);;
           for_range rest (fun t => _ <- G t;; ret tt)) (searching path fs)).
  unfold bind at 1. unfold bind at 1. unfold G at 1.
  rewrite (generate_open target b _ _ sp entries (searching path fs) path
             eq_refl eq_refl Hall).
  cbn [searching files stdout fieldStructs app].
  rewrite contents_insert, insert_insert_eq.
  change ("" +:+ generated ?x) with (generated x).
  fold F. fold bs.
  destruct (exec_Run ["go"; "fmt"; path] _) as [fs1 [e1|]]; [reflexivity |].
  destruct (exec_Run ["goimports"; "-w"; path] fs1) as [fs2 [e2|]]; reflexivity.
Qed.

End runs.

(** ** The type text *)

Lemma Index_star_cons (c : ascii) (t : string) :
  strings.Index (String c t) "*" =
  if Ascii.eqb "*" c then 0
  else let i := strings.Index t "*" in if i <? 0 then -1 else i + 1.
Proof.
  cbn [strings.Index strings.HasPrefix].
  destruct (Ascii.eqb "*" c); [now destruct t | reflexivity].
Qed.

Lemma Index_star_lower (s : string) : -1 <= strings.Index s "*".
Proof.
  induction s as [|c t IH]; [cbn; lia |].
  rewrite Index_star_cons. destruct (Ascii.eqb "*" c); [lia |].
  cbv zeta. destruct (Z.ltb_spec (strings.Index t "*") 0); lia.
Qed.

(** What [strings.Index] finds is the place where [remove_first] removes. *)
Lemma Index_star_remove (s : string) :
  let i := strings.Index s "*" in
  (i = -1 /\ remove_first "*" s = s /\ occurrences "*" s = O) \/
  (0 <= i /\
   remove_first "*" s = slice s 0 i +:+ drop_bytes (Z.to_nat (i + 1)) s /\
   occurrences "*" s <> O).
Proof.
  induction s as [|c t IH]; cbv zeta.
  - left. repeat split.
  - rewrite Index_star_cons. cbn [remove_first occurrences].
    rewrite (Ascii.eqb_sym c "*").
    destruct (Ascii.eqb "*" c).
    + right. split; [lia |]. split; [reflexivity | discriminate].
    + cbv zeta in IH. destruct IH as [(Hi & Hr & Ho) | (Hi & Hr & Ho)].
      * left. rewrite Hi, Hr, Ho. repeat split.
      * right. destruct (Z.ltb_spec (strings.Index t "*") 0) as [Hlt | _]; [lia |].
        split; [lia |]. split; [| exact Ho].
        rewrite Hr. unfold slice.
        replace (Z.to_nat (strings.Index t "*" + 1 - 0))
          with (S (Z.to_nat (strings.Index t "*" - 0))) by lia.
        replace (Z.to_nat (strings.Index t "*" + 1 + 1))
          with (S (Z.to_nat (strings.Index t "*" + 1))) by lia.
        reflexivity.
Qed.

Lemma count_from_nonneg (fuel : nat) (s sub : string) :
  0 <= strings.count_from fuel s sub.
Proof.
  revert s. induction fuel as [|fuel IH]; intros s; cbn [strings.count_from]; [lia |].
  destruct (strings.Index s sub <? 0); [lia |]. specialize (IH (drop_bytes (Z.to_nat (strings.Index s sub + len sub)) s)). lia.
Qed.

(** [strings.Replace] of the first ["*"] by nothing is [remove_first]. *)
Lemma Replace_star (s : string) :
  strings.Replace s "*" "" 1 = remove_first "*" s.
Proof.
  unfold strings.Replace, strings.Count.
  change (String.eqb "*" "" || (1 =? 0)) with false.
  change (len "*" =? 0) with false. cbv iota.
  cbn [strings.count_from].
  pose proof (Index_star_remove s) as Hs. cbv zeta in Hs.
  destruct Hs as [(Hi & Hr & _) | (Hi & Hr & _)].
  - rewrite Hi. cbn. now rewrite Hr.
  - destruct (Z.ltb_spec (strings.Index s "*") 0) as [Hlt | _]; [lia |].
    pose proof (count_from_nonneg (String.length s)
                  (drop_bytes (Z.to_nat (strings.Index s "*" + len "*")) s) "*") as Hc.
    set (m := 1 + strings.count_from _ _ _) in *.
    destruct (Z.eqb_spec m 0) as [Hm | _]; [lia |].
    replace ((1 <? 0) || (m <? 1)) with false
      by (symmetry; apply orb_false_iff; split; [reflexivity | apply Z.ltb_ge; lia]).
    change (Z.to_nat 1) with 1%nat. cbn [strings.Replace_loop].
    change (len "*" =? 0) with false. cbv iota.
    rewrite Hr. reflexivity.
Qed.

(** Removing the first occurrence removes one occurrence, if there is
    one, and no other byte. *)
Lemma occurrences_remove_first (c : ascii) (s : string) :
  occurrences c (remove_first c s) = Nat.pred (occurrences c s).
Proof.
  induction s as [|a t IH]; [reflexivity |].
  cbn [remove_first occurrences].
  destruct (Ascii.eqb a c) eqn:E; [reflexivity |].
  cbn [occurrences]. rewrite E. exact IH.
Qed.

Lemma remove_first_none (c : ascii) (s : string) :
  occurrences c s = O -> remove_first c s = s.
Proof.
  induction s as [|a t IH]; [reflexivity |].
  cbn [remove_first occurrences].
  destruct (Ascii.eqb a c); [discriminate |].
  intros Ho. now rewrite IH.
Qed.

Lemma remove_first_split (c : ascii) (pre post : string) :
  occurrences c pre = O ->
  remove_first c (pre +:+ String c post) = pre +:+ post.
Proof.
  induction pre as [|a t IH]; intros Ho.
  - cbn [remove_first]. change ("" +:+ String c post) with (String c post). cbn [remove_first]. now rewrite Ascii.eqb_refl.
  - rewrite !append_cons. cbn [remove_first occurrences] in *.
    destruct (Ascii.eqb a c); [discriminate |].
    now rewrite IH.
Qed.

(** ** The properties of the specification *)

(** *** The rendered methods *)

(** C2. The template renders, after the header, one setter and one getter
    per field, in order. The setter [With<Name>] assigns the address of the
    value when the field is not composite and the value itself when it is,
    and returns [o] ([With_method]); the getter [Get<Name>] returns a
    variable of the field's type that was never assigned when the field is
    [nil], and otherwise what the field points to when it is not composite,
    the field itself when it is ([Get_method]). *)
Theorem C2_setter_and_getter (bs : bodyStruct) :
  exists body,
    template.Parse bodyTmpl = Some body /\
    snd (template.execute body (bodyStruct_value bs)) = None /\
    join (fst (template.execute body (bodyStruct_value bs))) =
    header bs +:+
    join (map (fun f => With_method f +:+ Get_method f) (Fields bs)) +:+ "
".
Proof.
  exists body_nodes. split; [apply Parse_bodyTmpl |].
  destruct (execute_body_generated bs) as (w & ws & -> & Hjoin).
  split; [reflexivity | exact Hjoin].
Qed.

(** *** The name of the output file *)

(** C5. For the source file [config.go] and the type [PullOptions] the
    generator creates [confi_pull_options.go]: [strings.TrimRight] takes
    [".go"] as a set of bytes and also removes the [g] that ends [config].
    The specification names [config_pull_options.go]. *)
Theorem C5_out_path_of_config_go `{Platform} :
  out_path "config.go" "PullOptions" = "confi_pull_options.go" /\
  specified_out_path "config.go" "PullOptions" = "config_pull_options.go".
Proof. split; reflexivity. Qed.

(** Where the name of the source file, without [".go"], does not end with
    one of the bytes of [".go"], the generator creates the file the
    specification names. *)
Lemma TrimRight_go (stem : string) :
  match rev_bytes stem "" with
  | String c _ => strings.contains_byte ".go" c = false
  | EmptyString => True
  end ->
  strings.TrimRight (stem +:+ ".go") ".go" = stem.
Proof.
  assert (Hrev_app : forall s acc, rev_bytes s acc = rev_bytes s "" +:+ acc).
  { induction s as [|c s IH]; intros acc; [reflexivity |].
    cbn [rev_bytes]. rewrite (IH (String c acc)), (IH (String c "")).
    now rewrite append_assoc. }
  assert (Hrev_snoc : forall s t, rev_bytes (s +:+ t) "" = rev_bytes t "" +:+ rev_bytes s "").
  { induction s as [|c s IH]; intros t.
    - now rewrite append_nil_r.
    - rewrite append_cons. cbn [rev_bytes].
      rewrite (Hrev_app (s +:+ t)), (Hrev_app s), IH. now rewrite append_assoc. }
  assert (Hrev_rev : forall s, rev_bytes (rev_bytes s "") "" = s).
  { induction s as [|c s IH]; [reflexivity |].
    cbn [rev_bytes]. rewrite (Hrev_app s), Hrev_snoc, IH. reflexivity. }
  intros Hlast. unfold strings.TrimRight. rewrite Hrev_snoc.
  change (rev_bytes ".go" "") with "og.".
  rewrite !append_cons. change ("" +:+ rev_bytes stem "") with (rev_bytes stem "").
  cbn [strings.trim_left_bytes].
  change (strings.contains_byte ".go" "o") with true.
  change (strings.contains_byte ".go" "g") with true.
  change (strings.contains_byte ".go" ".") with true. cbv iota.
  destruct (rev_bytes stem "") as [|c r] eqn:Er.
  - rewrite <- (Hrev_rev stem), Er. reflexivity.
  - cbn [strings.trim_left_bytes]. rewrite Hlast.
    rewrite <- Er. apply Hrev_rev.
Qed.

Lemma without_extension_go (stem : string) :
  without_extension (stem +:+ ".go") = stem.
Proof.
  unfold without_extension.
  assert (Hlen : String.length (stem +:+ ".go") = (String.length stem + 3)%nat).
  { induction stem as [|c s IH]; [reflexivity |].
    rewrite append_cons. cbn [String.length]. now rewrite IH. }
  rewrite Hlen. replace (String.length stem + 3 - 3)%nat with (String.length stem) by lia.
  clear Hlen.
  assert (Hdrop : drop_bytes (String.length stem) (stem +:+ ".go") = ".go").
  { induction stem as [|c s IH]; [reflexivity | exact IH]. }
  assert (Htake : take_bytes (String.length stem) (stem +:+ ".go") = stem).
  { clear Hdrop. induction stem as [|c s IH]; [reflexivity |].
    rewrite append_cons. cbn [String.length take_bytes]. now rewrite IH. }
  now rewrite Hdrop, Htake.
Qed.

(** On such a source file name the generator creates the file the
    specification names. *)
Lemma out_path_specified `{Platform} (stem target : string) :
  match rev_bytes stem "" with
  | String c _ => strings.contains_byte ".go" c = false
  | EmptyString => True
  end ->
  out_path (stem +:+ ".go") target = specified_out_path (stem +:+ ".go") target.
Proof.
  intros Hlast. unfold out_path, specified_out_path.
  now rewrite (TrimRight_go stem Hlast), without_extension_go.
Qed.

(** *** The fields *)

(** C6. The type text of a field is the slice of the source between the
    start and the end of its type expression, without the first ["*"] of
    the slice: one occurrence less if there is one, and no other byte
    removed. *)
Theorem C6_type_text `{Platform} (target b : string) (e : ast.Field) (s : State) :
  checks b e = true ->
  let text := slice b (ast.Pos (ast.span (ast.Type_ e)) - 1)
                      (ast.End_ (ast.span (ast.Type_ e)) - 1) in
  exists d,
    field_step target b e s = (Val tt, add_fields [d] s) /\
    Type_ d = remove_first "*" text /\
    occurrences "*" (Type_ d) = Nat.pred (occurrences "*" text) /\
    (forall pre post, text = pre +:+ "*" +:+ post -> occurrences "*" pre = O ->
                      Type_ d = pre +:+ post) /\
    (occurrences "*" text = O -> Type_ d = text).
Proof.
  intros Hc text. exists (fieldStruct_of target b e).
  split; [apply (field_step_ok target b e s Hc) |].
  assert (Ht : Type_ (fieldStruct_of target b e) = remove_first "*" text)
    by apply Replace_star.
  rewrite Ht. split; [reflexivity |].
  split; [apply occurrences_remove_first |].
  split.
  - intros pre post -> Hpre. now apply remove_first_split.
  - apply remove_first_none.
Qed.

Lemma C6_type_text_witness :
  checks Examples.pointer_src Examples.pointer_P = true /\
  exists d,
    field_step (H:=Examples.platform) "Opts" Examples.pointer_src
      Examples.pointer_P (initial ∅) = (Val tt, add_fields [d] (initial ∅)) /\
    Type_ d = "struct{ X int }".
Proof.
  split; [reflexivity |].
  destruct (C6_type_text (H:=Examples.platform) "Opts" Examples.pointer_src
              Examples.pointer_P (initial ∅) eq_refl) as (d & Hstep & Ht & _).
  exists d. split; [exact Hstep | exact Ht].
Defined.

(** C7. On an embedded field, a field entry without names, the generator
    does not fail with [bad name]: the check of the name is made inside the
    branch for an entry that has names. The entry of the source
    [embedded_src] passes [field_step] and gets a descriptor with the empty
    name, and the text rendered for it, which is handed to [go fmt], holds
    a method [With] and a method [Get] without a name. *)
Theorem C7_embedded_field_not_rejected :
  ast.Names Examples.embedded_field = [] /\
  type_text Examples.embedded_src Examples.embedded_field = "io.Reader" /\
  field_step (H:=Examples.platform) "Opts" Examples.embedded_src
    Examples.embedded_field (initial ∅) =
  (Val tt,
   add_fields
     [{| Comment := ""; Composite := false; Name := ""; StructName := "Opts";
         Type_ := "io.Reader" |}] (initial ∅)) /\
  rendering (H:=Examples.platform) Examples.env Examples.embedded "Opts"
    Examples.embedded_src [Examples.embedded_field] =
"// Code generated by go generate; DO NOT EDIT.
package p

import (
	" +:+ dquote +:+ "reflect" +:+ dquote +:+ "
	" +:+ dquote +:+ "github.com/containers/podman/v4/pkg/bindings/internal/util" +:+ dquote +:+ "

)

// Changed returns true if named field has been set
func (o *Opts) Changed(fieldName string) bool {
	return util.Changed(o, fieldName)
}

// ToParams formats struct fields to be passed to API service
func (o *Opts) ToParams() (url.Values, error) {
	return util.ToParams(o)
}


// With set field  to given value
func(o *Opts) With(value io.Reader) *Opts {
	o. = &value
	return o
}

// Get returns value of field 
func(o *Opts) Get() io.Reader {
	if o. == nil {
		var z io.Reader
		return z
	}
    return *o.
}

" /\
  Examples.output Examples.embedded_src =
  rendering (H:=Examples.platform) Examples.env Examples.embedded "Opts"
    Examples.embedded_src [Examples.embedded_field].
Proof. repeat split; vm_compute; reflexivity. Qed.

(** An entry without names passes the checks of [field_step] as soon as
    its type lies in the source: no panic, and the empty name. *)
Lemma field_step_unnamed `{Platform} (target b : string) (e : ast.Field) (s : State) :
  ast.Names e = [] -> type_in_source b e = true ->
  exists d, field_step target b e s = (Val tt, add_fields [d] s) /\ Name d = "".
Proof.
  intros Hn Hsrc. exists (fieldStruct_of target b e). split.
  - apply field_step_ok. unfold checks. now rewrite Hn, Hsrc.
  - unfold fieldStruct_of, first_name. cbn [Name]. now rewrite Hn.
Qed.

(** C3, as stated, fails: of two fields of the same struct type, the one
    declared as a pointer to the struct is not classified composite, and its
    setter assigns the address of the value. *)
Lemma C3_counterexample :
  map (fun e => type_text Examples.pointer_src e)
      [Examples.pointer_P; Examples.pointer_V] =
    ["*struct{ X int }"; "struct{ X int }"] /\
  fst (Examples.run Examples.pointer_src) = Returned /\
  map (fun d => (Name d, Composite d))
      (fieldStructs (snd (Examples.run Examples.pointer_src))) =
    [("P", false); ("V", true)] /\
  strings.Index (Examples.output Examples.pointer_src) "o.P = &value" <> -1 /\
  strings.Index (Examples.output Examples.pointer_src) "o.V = value" <> -1.
Proof. repeat split; vm_compute; congruence. Qed.

(** C3, amended. Of two fields of the same struct type, the one declared
    as the struct type itself is composite and its setter assigns the value;
    the one declared as a pointer to the struct type is not composite: its
    setter takes a value of the struct type and assigns its address. *)
Theorem C3_pointer_to_struct_not_composite `{Platform} (target b : string)
    (p v : ast.Field) (star sp sp' : ast.Span) (entries entries' : list ast.Field)
    (s : State) :
  ast.Type_ p = ast.StarExpr star (ast.StructType sp entries) ->
  ast.Type_ v = ast.StructType sp' entries' ->
  checks b p = true -> checks b v = true ->
  exists dp dv,
    for_range [p; v] (field_step target b) s = (Val tt, add_fields [dp; dv] s) /\
    Composite dp = false /\ Composite dv = true /\
    Type_ dp = remove_first "*" (type_text b p) /\
    With_method dp =
      "
" +:+ With_doc dp +:+ "
func(o *" +:+ target +:+ ") With" +:+ first_name p +:+ "(value " +:+ Type_ dp +:+
      ") *" +:+ target +:+ " {
	o." +:+ first_name p +:+ " = &value
	return o
}
" /\
    With_method dv =
      "
" +:+ With_doc dv +:+ "
func(o *" +:+ target +:+ ") With" +:+ first_name v +:+ "(value " +:+ Type_ dv +:+
      ") *" +:+ target +:+ " {
	o." +:+ first_name v +:+ " = value
	return o
}
".
Proof.
  intros Hp Hv Hcp Hcv.
  exists (fieldStruct_of target b p), (fieldStruct_of target b v).
  split.
  - rewrite (for_range_field_step_ok target b [p; v] s); [reflexivity |].
    cbn [forallb]. now rewrite Hcp, Hcv.
  - unfold With_method, fieldStruct_of.
    cbn [Composite Name StructName Type_]. rewrite Hp, Hv.
    cbn [composite_of]. repeat split. apply Replace_star.
Qed.

Lemma C3_pointer_to_struct_not_composite_witness :
  checks Examples.pointer_src Examples.pointer_P = true /\
  checks Examples.pointer_src Examples.pointer_V = true /\
  exists dp dv,
    for_range [Examples.pointer_P; Examples.pointer_V]
      (field_step (H:=Examples.platform) "Opts" Examples.pointer_src) (initial ∅)
    = (Val tt, add_fields [dp; dv] (initial ∅)) /\
    Composite dp = false /\ Composite dv = true.
Proof.
  split; [reflexivity |]. split; [reflexivity |].
  destruct (C3_pointer_to_struct_not_composite (H:=Examples.platform)
              "Opts" Examples.pointer_src Examples.pointer_P Examples.pointer_V
              _ _ _ _ _ (initial ∅) eq_refl eq_refl eq_refl eq_refl)
    as (dp & dv & Hrun & Hp & Hv & _).
  exists dp, dv. repeat split; assumption.
Defined.

(** *** The comment of a field *)

Lemma fmtComment_lower_first `{UnicodeTables} (text : string) :
  fmtComment text = strings.TrimSpace (lower_first text).
Proof.
  unfold fmtComment, lower_first.
  destruct (utf8.DecodeRuneInString text) as [r n].
  now destruct (r =? utf8.RuneError).
Qed.

Lemma byte_val_range (c : ascii) : 0 <= byte_val c < 256.
Proof.
  unfold byte_val. pose proof (N_ascii_bounded c) as Hb. lia.
Qed.

Lemma byte_of_val (c : ascii) : byte_of (byte_val c) = c.
Proof.
  unfold byte_of, byte_val. rewrite N2Z.id. apply ascii_N_embedding.
Qed.

(** On a text that starts with an ASCII byte, [lower_first] puts that byte
    in lower case. *)
Lemma lower_first_ascii `{UnicodeTables} (c : ascii) (t : string) :
  byte_val c < 128 ->
  lower_first (String c t) = String (lower_byte c) t.
Proof.
  intros Hc. pose proof (byte_val_range c) as Hr.
  unfold lower_first, utf8.DecodeRuneInString.
  replace (len (String c t) <? 1) with false
    by (symmetry; apply Z.ltb_ge; unfold len; cbn [String.length]; lia).
  change (byte_at (String c t) 0) with (byte_val c).
  replace (byte_val c <? utf8.RuneSelf) with true
    by (symmetry; apply Z.ltb_lt; exact Hc).
  replace (byte_val c =? utf8.RuneError) with false
    by (symmetry; apply Z.eqb_neq; unfold utf8.RuneError; lia).
  change (drop_bytes (Z.to_nat 1) (String c t)) with t.
  unfold unicode.ToLower, unicode.MaxASCII, lower_byte.
  replace (byte_val c <=? 127) with true by (symmetry; apply Z.leb_le; lia).
  unfold utf8.EncodeRune.
  destruct ((65 <=? byte_val c) && (byte_val c <=? 90)) eqn:Eu.
  - apply andb_true_iff in Eu as [Hlo Hhi]. apply Z.leb_le in Hlo, Hhi.
    replace ((0 <=? byte_val c + 32) && (byte_val c + 32 <=? 127)) with true
      by (symmetry; apply andb_true_iff; split; apply Z.leb_le; lia).
    reflexivity.
  - replace ((0 <=? byte_val c) && (byte_val c <=? 127)) with true
      by (symmetry; apply andb_true_iff; split; apply Z.leb_le; lia).
    unfold utf8.b1. now rewrite byte_of_val.
Qed.

(** C8, as stated, fails: the doc comment of a field, on the lines before
    it, is not rendered; the methods of the field get the phrases made of
    its name. The comment the generator renders is the one that ends the
    line of the field. *)
Lemma C8_counterexample :
  ast.Doc Examples.doc_field = Some {| ast.Text := "All removes all images
" |} /\
  fst (Examples.run Examples.doc_src) = Returned /\
  map Comment (fieldStructs (snd (Examples.run Examples.doc_src))) = [""] /\
  strings.Index (Examples.output Examples.doc_src)
    "// WithAll set field All to given value" <> -1 /\
  strings.Index (Examples.output Examples.doc_src)
    "// GetAll returns value of field All" <> -1 /\
  strings.Index (Examples.output Examples.doc_src) "all removes all images" = -1 /\
  strings.Index (Examples.output Examples.line_src)
    "// WithAll set all removes all images" <> -1.
Proof. repeat split; vm_compute; congruence. Qed.

(** C8, amended. The comment rendered for a field is its line comment (the
    comment that ends the line of the field), with its first character in
    lower case and then the space around it trimmed; the doc comment of the
    field is not looked at. A field with no line comment, or one that is
    empty once trimmed, gets for its setter and its getter the phrases made
    of its name. *)
Theorem C8_line_comment `{Platform} (target b : string)
    (doc : option ast.CommentGroup) (names : list ast.Ident) (t : ast.Node)
    (tag : option ast.BasicLit) (comment : option ast.CommentGroup) (s : State) :
  checks b (ast.mkField doc names t tag comment) = true ->
  exists d,
    field_step target b (ast.mkField doc names t tag comment) s =
      (Val tt, add_fields [d] s) /\
    Name d = first_name (ast.mkField doc names t tag comment) /\
    Comment d =
      match comment with
      | Some g => strings.TrimSpace (lower_first (ast.Text g))
      | None => ""
      end /\
    if String.eqb (Comment d) ""
    then With_doc d = "// With" +:+ Name d +:+ " set field " +:+ Name d +:+ " to given value" /\
         Get_doc d = "// Get" +:+ Name d +:+ " returns value of field " +:+ Name d
    else With_doc d = "// With" +:+ Name d +:+ " set " +:+ Comment d /\
         Get_doc d = "// Get" +:+ Name d +:+ " returns value of " +:+ Comment d.
Proof.
  intros Hc. set (e := ast.mkField doc names t tag comment) in *.
  exists (fieldStruct_of target b e).
  split; [apply (field_step_ok target b e s Hc) |].
  split; [reflexivity |].
  split.
  - unfold fieldStruct_of. cbn [Comment]. rewrite fmtComment_lower_first.
    subst e. cbn [ast.Comment ast.CommentGroup_Text].
    destruct comment; reflexivity.
  - unfold With_doc, Get_doc, doc_or.
    destruct (String.eqb (Comment (fieldStruct_of target b e)) ""); split; reflexivity.
Qed.

Lemma C8_line_comment_witness :
  checks Examples.line_src Examples.line_field = true /\
  exists d,
    field_step (H:=Examples.platform) "Opts" Examples.line_src
      Examples.line_field (initial ∅) = (Val tt, add_fields [d] (initial ∅)) /\
    Comment d = "all removes all images".
Proof.
  split; [reflexivity |].
  destruct (C8_line_comment (H:=Examples.platform) "Opts" Examples.line_src
              None [Examples.ident_of Examples.line_src "All"]
              (ast.StarExpr (Examples.span_of Examples.line_src "*bool")
                 (Examples.named_type 0 Examples.line_src "bool"))
              None (Some {| ast.Text := "All removes all images
" |}) (initial ∅) eq_refl) as (d & Hstep & _ & Hcomment & _).
  exists d. split; [exact Hstep | exact Hcomment].
Defined.

(** *** Runs *)

Section run_properties.
Context `{Platform}.
Variables (Args : list string) (env fs : gmap string string)
          (target b : string) (f : ast.File).

Let path := out_path (os_Getenv env "GOFILE") target.
Let G := generate target b (imports_of f) (os_Getenv env "GOPACKAGE") body_nodes.


(** C4, amended. A run in which no declaration has the wanted name does
    not fail: [main] returns, the exit status is 0, nothing is printed and
    the output file is left empty. *)
Theorem C4_no_match_returns :
  searches Args env fs target b f ->
  ast.declared target (ast.visitsFile f) = [] ->
  fst (main Args env fs) = Returned /\
  exit_status (fst (main Args env fs)) = 0 /\
  files (snd (main Args env fs)) = <[path := ""]> fs /\
  stdout (snd (main Args env fs)) = [].
Proof.
  intros Hrun Hnone.
  rewrite (main_search Args env fs target b f Hrun), Hnone.
  cbn [for_range ret fst snd exit_status].
  rewrite files_deferred, stdout_deferred. repeat split.
Qed.

(** C1, amended. When the first declaration of the wanted name is a struct
    type whose entries have a name and a type in the source, the text handed
    to [go fmt] is the header followed by exactly one setter and getter pair
    per field entry, in the order of the entries, under the first name of
    each entry. When each entry declares one name, these are the declared
    field names. *)
Theorem C1_one_pair_per_entry sp (entries : list ast.Field) (rest : list ast.Node) :
  searches Args env fs target b f ->
  ast.declared target (ast.visitsFile f) = ast.StructType sp entries :: rest ->
  forallb named entries = true ->
  forallb (type_in_source b) entries = true ->
  let descs := map (fieldStruct_of target b) entries in
  let bs := {| PackageName := os_Getenv env "GOPACKAGE"; Imports := imports_of f;
               body_StructName := target; Fields := descs |} in
  files (snd (main Args env fs)) =
    post_files path
      (<[path := header bs +:+
                 join (map (fun d => With_method d +:+ Get_method d) descs) +:+ "
"]> fs) /\
  length descs = length entries /\
  map Name descs = map first_name entries /\
  (forallb (fun e => Nat.eqb (length (ast.Names e)) 1) entries = true ->
   map Name descs = declared_names entries).
Proof.
  intros Hrun Hdecl Hnamed Hsrc descs bs.
  assert (Hall : forallb (checks b) entries = true).
  { apply forallb_forall. intros e He.
    apply named_checks.
    - now apply (proj1 (forallb_forall _ _) Hnamed).
    - now apply (proj1 (forallb_forall _ _) Hsrc). }
  split; [| split; [| split]].
  - rewrite (main_search Args env fs target b f Hrun).
    rewrite (search_first_struct env fs target b f sp entries rest Hdecl Hall).
    fold path. fold descs. fold bs. change (header bs +:+ _) with (generated bs).
    unfold post_files.
    destruct (exec_Run ["go"; "fmt"; path] _) as [fs1 [e1|]]; [reflexivity |].
    destruct (exec_Run ["goimports"; "-w"; path] fs1) as [fs2 [e2|]]; [reflexivity |].
    destruct (for_range_generate_closed target b (imports_of f)
                (os_Getenv env "GOPACKAGE") rest (rendered path descs fs2 []) eq_refl)
      as (r & s' & Hrest & Hfiles & _).
    rewrite Hrest. cbn [fst].
    destruct r as [[]|[code|msg]]; cbn [snd]; rewrite ?files_deferred; exact Hfiles.
  - apply length_map.
  - unfold descs. rewrite map_map. reflexivity.
  - intros Hone. unfold descs, declared_names. rewrite map_map. cbn [Name fieldStruct_of].
    clear -Hone. induction entries as [|e l IH]; [reflexivity |].
    cbn [forallb] in Hone. apply andb_true_iff in Hone as [He Hl].
    cbn [map concat]. rewrite (IH Hl). unfold first_name.
    destruct (ast.Names e) as [|id [|id' ids]]; try discriminate. reflexivity.
Qed.


End run_properties.

(** *** The runs on the example sources *)

Lemma searches_example (src : string) (f : ast.File) :
  parser_ParseFile (Platform:=Examples.platform) src = inl f ->
  searches (H:=Examples.platform) (Examples.Args "Opts") Examples.env
    (Examples.files_with src) "Opts" src f.
Proof.
  intros Hparse. split; [| reflexivity].
  split; [reflexivity |]. split; [| exact Hparse].
  unfold Examples.files_with. apply lookup_insert_eq.
Qed.


(** C4, as stated, fails: on a source that declares no type of the wanted
    name the run returns with exit status 0, and leaves an empty output
    file. *)
Lemma C4_counterexample :
  ast.declared "Opts" (ast.visitsFile Examples.other) = [] /\
  fst (Examples.run Examples.other_src) = Returned /\
  exit_status (fst (Examples.run Examples.other_src)) = 0 /\
  files (snd (Examples.run Examples.other_src)) !! "types_opts.go" = Some "" /\
  stdout (snd (Examples.run Examples.other_src)) = [].
Proof. repeat split; vm_compute; reflexivity. Qed.

Lemma C4_no_match_returns_witness :
  searches (H:=Examples.platform) (Examples.Args "Opts") Examples.env
    (Examples.files_with Examples.other_src) "Opts" Examples.other_src
    Examples.other /\
  ast.declared "Opts" (ast.visitsFile Examples.other) = [] /\
  exit_status (fst (Examples.run Examples.other_src)) = 0.
Proof.
  assert (Hrun := searches_example Examples.other_src Examples.other eq_refl).
  split; [exact Hrun |]. split; [reflexivity |].
  exact (proj1 (proj2 (C4_no_match_returns (H:=Examples.platform)
                         _ _ _ _ _ _ Hrun eq_refl))).
Defined.

(** C1, as stated, fails: a field entry that declares two names gets one
    pair of methods, under its first name; the second name appears in no
    method. *)
Lemma C1_counterexample :
  ast.declared "Opts" (ast.visitsFile Examples.two_names) =
    [Examples.struct_type 0 0 Examples.two_names_src Examples.two_names_entries] /\
  declared_names Examples.two_names_entries = ["A"; "B"] /\
  fst (Examples.run Examples.two_names_src) = Returned /\
  map Name (fieldStructs (snd (Examples.run Examples.two_names_src))) = ["A"] /\
  strings.Count (Examples.output Examples.two_names_src) ") With" = 1 /\
  strings.Count (Examples.output Examples.two_names_src) ") Get" = 1 /\
  strings.Index (Examples.output Examples.two_names_src) "WithB" = -1 /\
  strings.Index (Examples.output Examples.two_names_src) "GetB" = -1.
Proof. repeat split; vm_compute; reflexivity. Qed.

Lemma C1_one_pair_per_entry_witness :
  searches (H:=Examples.platform) (Examples.Args "Opts") Examples.env
    (Examples.files_with Examples.pointer_src) "Opts" Examples.pointer_src
    Examples.pointer /\
  forallb named [Examples.pointer_P; Examples.pointer_V] = true /\
  forallb (type_in_source Examples.pointer_src)
    [Examples.pointer_P; Examples.pointer_V] = true /\
  map Name (map (fieldStruct_of (H:=Examples.tables) "Opts" Examples.pointer_src)
              [Examples.pointer_P; Examples.pointer_V]) = ["P"; "V"].
Proof.
  assert (Hrun := searches_example Examples.pointer_src Examples.pointer eq_refl).
  split; [exact Hrun |]. split; [reflexivity |]. split; [reflexivity |].
  exact (proj1 (proj2 (proj2 (C1_one_pair_per_entry (H:=Examples.platform)
                         _ _ _ _ _ _ _ _ [] Hrun eq_refl eq_refl eq_refl)))).
Defined.



(** * Further properties *)

(** ** Before the output file is created *)



(** ** The name of the output file *)

Lemma rev_bytes_acc (s acc : string) : rev_bytes s acc = rev_bytes s "" +:+ acc.
Proof.
  revert acc. induction s as [|c s IH]; intros acc; [reflexivity |].
  cbn [rev_bytes]. rewrite (IH (String c acc)), (IH (String c "")).
  now rewrite append_assoc.
Qed.

Lemma rev_bytes_app (s t : string) :
  rev_bytes (s +:+ t) "" = rev_bytes t "" +:+ rev_bytes s "".
Proof.
  induction s as [|c s IH].
  - now rewrite append_nil_r.
  - rewrite append_cons. cbn [rev_bytes].
    rewrite (rev_bytes_acc (s +:+ t)), (rev_bytes_acc s), IH.
    now rewrite append_assoc.
Qed.

Lemma rev_bytes_involutive (s : string) : rev_bytes (rev_bytes s "") "" = s.
Proof.
  induction s as [|c s IH]; [reflexivity |].
  cbn [rev_bytes]. rewrite (rev_bytes_acc s), rev_bytes_app, IH. reflexivity.
Qed.

Lemma all_in_app (cutset s t : string) :
  all_in cutset (s +:+ t) = all_in cutset s && all_in cutset t.
Proof.
  induction s as [|c s IH]; [reflexivity |].
  rewrite append_cons. cbn [all_in]. now rewrite IH, andb_assoc.
Qed.

Lemma all_in_rev (cutset s : string) :
  all_in cutset (rev_bytes s "") = all_in cutset s.
Proof.
  induction s as [|c s IH]; [reflexivity |].
  cbn [rev_bytes all_in]. rewrite rev_bytes_acc, all_in_app, IH.
  cbn [all_in]. rewrite andb_true_r. apply andb_comm.
Qed.

(** What [trim_left_bytes] removes is a prefix of bytes of the set, and
    what it leaves does not start with one. *)
Lemma trim_left_bytes_split (cutset s : string) :
  exists pre,
    s = pre +:+ strings.trim_left_bytes s cutset /\
    all_in cutset pre = true /\
    match strings.trim_left_bytes s cutset with
    | String c _ => strings.contains_byte cutset c = false
    | EmptyString => True
    end.
Proof.
  induction s as [|c s (pre & Hs & Hpre & Hrest)].
  - exists "". repeat split.
  - cbn [strings.trim_left_bytes].
    destruct (strings.contains_byte cutset c) eqn:Hc.
    + exists (String c pre). rewrite append_cons, <- Hs.
      cbn [all_in]. rewrite Hc, Hpre. repeat split. exact Hrest.
    + exists "". repeat split. exact Hc.
Qed.

(** [strings.TrimRight] removes the longest suffix made of bytes of the
    set. *)
Lemma TrimRight_split (s cutset : string) :
  exists suf,
    s = strings.TrimRight s cutset +:+ suf /\
    all_in cutset suf = true /\
    ends_outside cutset (strings.TrimRight s cutset) = true.
Proof.
  unfold strings.TrimRight, ends_outside.
  destruct (trim_left_bytes_split cutset (rev_bytes s "")) as (pre & Hs & Hpre & Hrest).
  exists (rev_bytes pre ""). split; [| split].
  - rewrite <- rev_bytes_app, <- Hs. symmetry. apply rev_bytes_involutive.
  - now rewrite all_in_rev.
  - rewrite rev_bytes_involutive.
    destruct (strings.trim_left_bytes (rev_bytes s "") cutset); [reflexivity |].
    now rewrite Hrest.
Qed.

(** X2. The output file is never the source file: whatever the names, the
    path [main] creates differs from the path it has read, so the creation
    leaves the source as it is. *)
Theorem X2_output_is_not_the_source `{Platform} (srcFile target : string)
    (fs : gmap string string) :
  out_path srcFile target <> srcFile /\
  <[out_path srcFile target := ""]> fs !! srcFile = fs !! srcFile.
Proof.
  assert (Hne : out_path srcFile target <> srcFile).
  { unfold out_path.
    destruct (TrimRight_split srcFile ".go") as (suf & Hs & Hsuf & _).
    intros Heq. rewrite Hs in Heq at 2.
    apply (inj (String.app _)) in Heq. subst suf.
    rewrite append_cons in Hsuf. discriminate Hsuf. }
  split; [exact Hne |]. now apply lookup_insert_ne.
Qed.

(** X3. The stem of the output file name is the source file name without
    its longest suffix made of the bytes ['.'], ['g'] and ['o']: the name
    is split there, and what follows the stem is the underscore, the
    rewritten type name and [".go"]. *)
Theorem X3_out_path_stem `{Platform} (srcFile target : string) :
  exists stem suf,
    srcFile = stem +:+ suf /\
    all_in ".go" suf = true /\
    ends_outside ".go" stem = true /\
    out_path srcFile target =
      stem +:+ "_" +:+
      strings.Replace (strings.ToLower target) "options" "_options" 1 +:+ ".go".
Proof.
  destruct (TrimRight_split srcFile ".go") as (suf & Hs & Hsuf & Hstem).
  exists (strings.TrimRight srcFile ".go"), suf. repeat split; assumption.
Qed.

Lemma HasPrefix_nil (old : string) : old <> "" -> strings.HasPrefix "" old = false.
Proof. destruct old; [congruence | reflexivity]. Qed.

Lemma len_pos (s : string) : s <> "" -> 0 < len s.
Proof. destruct s; [congruence |]. intros _. unfold len. cbn [String.length]. lia. Qed.

Lemma Index_lower (s sub : string) : -1 <= strings.Index s sub.
Proof.
  induction s as [|c t IH]; cbn [strings.Index].
  - destruct (strings.HasPrefix "" sub); lia.
  - destruct (strings.HasPrefix (String c t) sub); [lia |].
    destruct (Z.ltb_spec (strings.Index t sub) 0); lia.
Qed.

(** What [strings.Index] finds is the place where [replace_first]
    replaces. *)
Lemma Index_replace_first (old new s : string) :
  old <> "" ->
  let i := strings.Index s old in
  (i = -1 /\ replace_first old new s = s) \/
  (0 <= i /\
   replace_first old new s =
   slice s 0 i +:+ new +:+ drop_bytes (Z.to_nat (i + len old)) s).
Proof.
  intros Hold. induction s as [|c t IH]; cbv zeta.
  - cbn [strings.Index replace_first]. rewrite (HasPrefix_nil old Hold). now left.
  - cbn [strings.Index replace_first].
    destruct (strings.HasPrefix (String c t) old) eqn:Hp.
    + right. split; [lia |].
      change (slice (String c t) 0 0) with "".
      replace (Z.to_nat (0 + len old)) with (String.length old)
        by (unfold len; lia).
      reflexivity.
    + cbv zeta in IH. destruct IH as [(Hi & Hr) | (Hi & Hr)].
      * left. rewrite Hi, Hr. now split.
      * right. destruct (Z.ltb_spec (strings.Index t old) 0) as [Hlt | _]; [lia |].
        split; [lia |]. rewrite Hr. unfold slice.
        pose proof (len_pos old Hold) as Hlen.
        replace (Z.to_nat (strings.Index t old + 1 - 0))
          with (S (Z.to_nat (strings.Index t old - 0))) by lia.
        replace (Z.to_nat (strings.Index t old + 1 + len old))
          with (S (Z.to_nat (strings.Index t old + len old))) by lia.
        reflexivity.
Qed.

(** X4. [strings.Replace] with the count 1, as [main] calls it for the file
    name and for the type text, replaces the first instance of the old text
    and nothing else; a string without the old text is left as it is. *)
Theorem X4_Replace_first (s old new : string) :
  old <> "" -> old <> new ->
  strings.Replace s old new 1 = replace_first old new s /\
  (strings.Index s old = -1 -> strings.Replace s old new 1 = s).
Proof.
  intros Hold Hneq.
  assert (Heq : strings.Replace s old new 1 = replace_first old new s).
  { unfold strings.Replace, strings.Count.
    replace (String.eqb old new) with false
      by (symmetry; now apply String.eqb_neq).
    change (false || (1 =? 0)) with false. cbv iota.
    pose proof (len_pos old Hold) as Hlen.
    replace (len old =? 0) with false by (symmetry; apply Z.eqb_neq; lia).
    cbn [strings.count_from].
    pose proof (Index_replace_first old new s Hold) as Hs. cbv zeta in Hs.
    destruct Hs as [(Hi & Hr) | (Hi & Hr)].
    - rewrite Hi. cbn. now rewrite Hr.
    - destruct (Z.ltb_spec (strings.Index s old) 0) as [Hlt | _]; [lia |].
      pose proof (count_from_nonneg (String.length s)
                    (drop_bytes (Z.to_nat (strings.Index s old + len old)) s) old) as Hc.
      set (m := 1 + strings.count_from _ _ _) in *.
      destruct (Z.eqb_spec m 0) as [Hm | _]; [lia |].
      replace ((1 <? 0) || (m <? 1)) with false
        by (symmetry; apply orb_false_iff; split; [reflexivity | apply Z.ltb_ge; lia]).
      change (Z.to_nat 1) with 1%nat. cbn [strings.Replace_loop].
      replace (len old =? 0) with false by (symmetry; apply Z.eqb_neq; lia).
      cbv iota. rewrite Hr. reflexivity. }
  split; [exact Heq |].
  intros Hnone. rewrite Heq.
  destruct (Index_replace_first old new s Hold) as [(_ & Hr) | (Hi & _)]; [exact Hr | lia].
Qed.

Lemma X4_Replace_first_witness :
  "options" <> "" /\ "options" <> "_options" /\
  strings.Replace "pulloptionsoptions" "options" "_options" 1 =
  replace_first "options" "_options" "pulloptionsoptions".
Proof.
  split; [discriminate |]. split; [discriminate |].
  refine (proj1 (X4_Replace_first "pulloptionsoptions" "options" "_options" _ _));
    discriminate.
Defined.

(** ** The comment of a field, on ASCII text *)

Lemma asciiSpace_not_letter (v : Z) :
  strings.asciiSpace v = true -> (65 <=? v) && (v <=? 90) = false.
Proof.
  unfold strings.asciiSpace. rewrite !orb_true_iff, !Z.eqb_eq.
  intros Hv. apply andb_false_iff.
  destruct (Z.leb_spec 65 v); [right; apply Z.leb_gt; lia | now left].
Qed.

Lemma asciiSpace_ascii (v : Z) : strings.asciiSpace v = true -> v < 128.
Proof.
  unfold strings.asciiSpace. rewrite !orb_true_iff, !Z.eqb_eq. lia.
Qed.

Lemma byte_val_of (v : Z) : 0 <= v < 256 -> byte_val (byte_of v) = v.
Proof.
  intros Hv. unfold byte_val, byte_of.
  rewrite N_ascii_embedding; [lia |]. lia.
Qed.

Lemma lower_byte_space (c : ascii) :
  strings.asciiSpace (byte_val (lower_byte c)) = strings.asciiSpace (byte_val c).
Proof.
  unfold lower_byte.
  destruct ((65 <=? byte_val c) && (byte_val c <=? 90)) eqn:Eu; [| reflexivity].
  apply andb_true_iff in Eu as [Hlo Hhi]. apply Z.leb_le in Hlo, Hhi.
  rewrite byte_val_of by lia.
  unfold strings.asciiSpace.
  repeat match goal with
         | |- context [?a =? ?b] =>
           replace (a =? b) with false by (symmetry; apply Z.eqb_neq; lia)
         end.
  reflexivity.
Qed.

Lemma lower_byte_ascii (c : ascii) :
  byte_val c < 128 -> byte_val (lower_byte c) < 128.
Proof.
  intros Hc. unfold lower_byte.
  destruct ((65 <=? byte_val c) && (byte_val c <=? 90)) eqn:Eu; [| exact Hc].
  apply andb_true_iff in Eu as [Hlo Hhi]. apply Z.leb_le in Hlo, Hhi.
  rewrite byte_val_of; lia.
Qed.

(** X5. On a comment that starts with an ASCII byte, [fmtComment] puts
    that byte in lower case and trims; the first byte is looked at before
    the trimming, so a comment that starts with a space is only trimmed,
    and keeps the case of its first letter. *)
Theorem X5_fmtComment_first_byte `{UnicodeTables} (c : ascii) (t : string) :
  byte_val c < 128 ->
  fmtComment (String c t) = strings.TrimSpace (String (lower_byte c) t) /\
  if strings.asciiSpace (byte_val c)
  then fmtComment (String c t) = strings.TrimSpace t
  else if (65 <=? byte_val c) && (byte_val c <=? 90)
       then fmtComment (String c t) =
            strings.TrimSpace (String (byte_of (byte_val c + 32)) t)
       else fmtComment (String c t) = strings.TrimSpace (String c t).
Proof.
  intros Hc.
  assert (Hfmt : fmtComment (String c t) = strings.TrimSpace (String (lower_byte c) t))
    by now rewrite fmtComment_lower_first, lower_first_ascii.
  split; [exact Hfmt |]. rewrite Hfmt.
  destruct (strings.asciiSpace (byte_val c)) eqn:Hsp.
  - unfold lower_byte. rewrite (asciiSpace_not_letter _ Hsp).
    cbn [strings.TrimSpace].
    replace (utf8.RuneSelf <=? byte_val c) with false
      by (symmetry; apply Z.leb_gt; exact Hc).
    now rewrite Hsp.
  - unfold lower_byte.
    destruct ((65 <=? byte_val c) && (byte_val c <=? 90)); reflexivity.
Qed.

Lemma X5_fmtComment_first_byte_witness :
  byte_val " " < 128 /\
  fmtComment (H:=Examples.tables) " Hello world " = "Hello world".
Proof.
  split; [reflexivity |].
  exact (eq_trans
           (proj1 (X5_fmtComment_first_byte (H:=Examples.tables) " " "Hello world " eq_refl))
           eq_refl).
Defined.

Lemma isASCII_rev_acc (s acc : string) :
  strings.isASCII (rev_bytes s acc) = strings.isASCII s && strings.isASCII acc.
Proof.
  revert acc. induction s as [|c s IH]; intros acc; [reflexivity |].
  cbn [rev_bytes strings.isASCII]. rewrite IH. cbn [strings.isASCII].
  destruct (byte_val c <? utf8.RuneSelf), (strings.isASCII s); reflexivity.
Qed.

Lemma trim_space_end_ascii (r : string) :
  strings.isASCII r = true -> strings.trim_space_end r = inl (drop_spaces r).
Proof.
  induction r as [|c r IH]; [reflexivity |].
  cbn [strings.isASCII strings.trim_space_end drop_spaces].
  intros [Hc Hr]%andb_true_iff. apply Z.ltb_lt in Hc.
  replace (utf8.RuneSelf <=? byte_val c) with false
    by (symmetry; apply Z.leb_gt; exact Hc).
  destruct (strings.asciiSpace (byte_val c)); [now apply IH | reflexivity].
Qed.

(** On ASCII text [strings.TrimSpace] drops the spaces at both ends. *)
Lemma TrimSpace_ascii (s : string) :
  strings.isASCII s = true ->
  strings.TrimSpace s =
  rev_bytes (drop_spaces (rev_bytes (drop_spaces s) "")) "".
Proof.
  induction s as [|c s IH]; [reflexivity |].
  intros Hs. pose proof Hs as Hs'.
  cbn [strings.isASCII] in Hs. apply andb_true_iff in Hs as [Hc Hrest].
  apply Z.ltb_lt in Hc.
  cbn [strings.TrimSpace drop_spaces].
  replace (utf8.RuneSelf <=? byte_val c) with false
    by (symmetry; apply Z.leb_gt; exact Hc).
  destruct (strings.asciiSpace (byte_val c)); [now apply IH |].
  rewrite trim_space_end_ascii; [reflexivity |].
  now rewrite isASCII_rev_acc, Hs'.
Qed.

Lemma drop_spaces_start (s : string) : starts_with_space (drop_spaces s) = false.
Proof.
  induction s as [|c s IH]; [reflexivity |].
  cbn [drop_spaces]. destruct (strings.asciiSpace (byte_val c)) eqn:Hc; [exact IH |].
  exact Hc.
Qed.

Lemma drop_spaces_split (s : string) :
  exists pre, s = pre +:+ drop_spaces s /\ all_space pre = true.
Proof.
  induction s as [|c s (pre & Hs & Hpre)]; [now exists "" |].
  cbn [drop_spaces]. destruct (strings.asciiSpace (byte_val c)) eqn:Hc.
  - exists (String c pre). rewrite append_cons, <- Hs. cbn [all_space].
    now rewrite Hc, Hpre.
  - now exists "".
Qed.

Lemma drop_spaces_empty (s : string) :
  String.eqb (drop_spaces s) "" = all_space s.
Proof.
  induction s as [|c s IH]; [reflexivity |].
  cbn [drop_spaces all_space].
  destruct (strings.asciiSpace (byte_val c)); [exact IH | reflexivity].
Qed.

Lemma all_space_rev_acc (s acc : string) :
  all_space (rev_bytes s acc) = all_space s && all_space acc.
Proof.
  revert acc. induction s as [|c s IH]; intros acc; [reflexivity |].
  cbn [rev_bytes all_space]. rewrite IH. cbn [all_space].
  destruct (strings.asciiSpace (byte_val c)), (all_space s); reflexivity.
Qed.

Lemma rev_bytes_empty (s : string) :
  String.eqb (rev_bytes s "") "" = String.eqb s "".
Proof.
  destruct s as [|c s]; [reflexivity |].
  cbn [rev_bytes]. rewrite rev_bytes_acc.
  destruct (rev_bytes s ""); reflexivity.
Qed.

(** The trimmed ASCII text has no space at either end, and is empty
    exactly when the text is made of spaces. *)
Lemma TrimSpace_ascii_ends (s : string) :
  strings.isASCII s = true ->
  starts_with_space (strings.TrimSpace s) = false /\
  ends_with_space (strings.TrimSpace s) = false /\
  String.eqb (strings.TrimSpace s) "" = all_space s.
Proof.
  intros Hs. rewrite (TrimSpace_ascii s Hs).
  set (s' := drop_spaces s). set (u := drop_spaces (rev_bytes s' "")).
  split; [| split].
  - destruct (drop_spaces_split (rev_bytes s' "")) as (pre & Hr & _). fold u in Hr.
    assert (Hs' : s' = rev_bytes u "" +:+ rev_bytes pre "").
    { rewrite <- rev_bytes_app, <- Hr. symmetry. apply rev_bytes_involutive. }
    pose proof (drop_spaces_start s) as Hstart. fold s' in Hstart.
    rewrite Hs' in Hstart.
    destruct (rev_bytes u "") as [|c r]; [reflexivity | exact Hstart].
  - unfold ends_with_space. rewrite rev_bytes_involutive. apply drop_spaces_start.
  - rewrite rev_bytes_empty. unfold u. rewrite drop_spaces_empty.
    rewrite all_space_rev_acc. cbn [all_space]. rewrite andb_true_r.
    unfold s'. destruct (drop_spaces_split s) as (pre & Hsplit & Hpre).
    rewrite Hsplit at 2.
    assert (Happ : forall a b, all_space (a +:+ b) = all_space a && all_space b).
    { induction a as [|c a IHa]; intros b0; [reflexivity |].
      rewrite append_cons. cbn [all_space]. now rewrite IHa, andb_assoc. }
    now rewrite Happ, Hpre.
Qed.

(** X6. The comment [fmtComment] makes of ASCII text has no ASCII space
    at its start or at its end, and it is empty exactly when the text is
    made of spaces only, which is when the methods of the field get the
    phrases made of its name. *)
Theorem X6_fmtComment_trimmed `{UnicodeTables} (text : string) :
  strings.isASCII text = true ->
  starts_with_space (fmtComment text) = false /\
  ends_with_space (fmtComment text) = false /\
  String.eqb (fmtComment text) "" = all_space text.
Proof.
  intros Htext. rewrite fmtComment_lower_first.
  destruct text as [|c t]; [repeat split |].
  cbn [strings.isASCII] in Htext. apply andb_true_iff in Htext as [Hc Ht].
  apply Z.ltb_lt in Hc. rewrite (lower_first_ascii c t Hc).
  assert (Hascii : strings.isASCII (String (lower_byte c) t) = true).
  { cbn [strings.isASCII]. rewrite Ht, andb_true_r.
    apply Z.ltb_lt, lower_byte_ascii, Hc. }
  destruct (TrimSpace_ascii_ends _ Hascii) as (Hstart & Hend & Hempty).
  split; [exact Hstart |]. split; [exact Hend |].
  rewrite Hempty. cbn [all_space]. now rewrite lower_byte_space.
Qed.

Lemma X6_fmtComment_trimmed_witness :
  strings.isASCII "  All removes all images
" = true /\
  starts_with_space (fmtComment (H:=Examples.tables) "  All removes all images
") = false.
Proof.
  split; [reflexivity |].
  exact (proj1 (X6_fmtComment_trimmed (H:=Examples.tables) "  All removes all images
" eq_refl)).
Defined.

(** ** The generation for one declaration *)

Lemma forallb_first_false {A} (p : A -> bool) (l : list A) :
  forallb p l = false ->
  exists pre e post, l = (pre ++ e :: post)%list /\ forallb p pre = true /\ p e = false.
Proof.
  induction l as [|a l IH]; [discriminate |].
  cbn [forallb]. destruct (p a) eqn:Ha.
  - intros Hl. destruct (IH Hl) as (pre & e & post & -> & Hpre & He).
    exists (a :: pre), e, post. cbn [forallb]. now rewrite Ha, Hpre.
  - intros _. now exists [], a, l.
Qed.

(** An entry that fails a check panics with the message of the first check
    it fails. *)
Lemma field_step_check_failure `{Platform} (target b : string) (e : ast.Field)
    (s : State) :
  checks b e = false ->
  field_step target b e s = (Stop (Panic (check_failure e)), s).
Proof.
  unfold checks, check_failure, empty_name. intros Hc.
  unfold field_step, field_name, bind.
  rewrite bounds_type_in_source.
  destruct (ast.Names e) as [|id ids].
  - cbn [andb] in Hc. now rewrite Hc.
  - rewrite len_lt_1.
    destruct (String.eqb (ast.Name id) "") eqn:En; cbn [negb andb] in Hc.
    + reflexivity.
    + now rewrite Hc.
Qed.

(** The loop over the entries stops at the first one that fails a check. *)
Lemma for_range_field_step_stops `{Platform} (target b : string)
    (pre : list ast.Field) (e : ast.Field) (post : list ast.Field) (s : State) :
  forallb (checks b) pre = true -> checks b e = false ->
  for_range (pre ++ e :: post) (field_step target b) s =
  (Stop (Panic (check_failure e)), add_fields (map (fieldStruct_of target b) pre) s).
Proof.
  revert s. induction pre as [|a pre IH]; intros s Hpre He.
  - cbn [app map]. rewrite add_fields_nil.
    change (for_range (e :: post) (field_step target b) s) with
      ((field_step target b e;; for_range post (field_step target b)) s).
    unfold bind. now rewrite (field_step_check_failure target b e s He).
  - cbn [forallb] in Hpre. apply andb_true_iff in Hpre as [Ha Hpre].
    change (for_range ((a :: pre) ++ e :: post) (field_step target b) s) with
      ((field_step target b a;; for_range (pre ++ e :: post) (field_step target b)) s).
    unfold bind. rewrite (field_step_ok target b a s Ha).
    fold (add_fields [fieldStruct_of target b a] s).
    rewrite (IH _ Hpre He), add_fields_app. reflexivity.
Qed.



(** ** The search of the tree *)

(** X8. The function [main] passes to [ast.Inspect] never prunes the
    walk: it is called on every node of the file, in the order of the
    walk, until a call stops the process, also below a declaration it has
    generated for. So the search comes down to the generation for the type
    of each declaration of the wanted name, in that order, wherever in the
    file the declaration stands. *)
Theorem X8_search_visits_every_declaration `{Platform} (target b : string)
    (imports : list string) (pkg : string) (f : ast.File) (s : State) :
  let I := inspector target b imports pkg body_nodes in
  ast.Inspect I f s = visit_all I (ast.visitsFile f) s /\
  ast.Inspect I f s =
  for_range (ast.declared target (ast.visitsFile f))
    (fun t => _ <- generate target b imports pkg body_nodes t;; ret tt) s.
Proof.
  intros I. split.
  - apply Inspect_visits. apply inspector_descends.
  - apply Inspect_declared.
Qed.

(** ** Runs that render *)

Section rendering_runs.
Context `{Platform}.
Variables (Args : list string) (env fs : gmap string string)
          (target b : string) (f : ast.File).

Let path := out_path (os_Getenv env "GOFILE") target.

(** X9. The run that succeeds: the one declaration of the wanted name is
    a struct type whose entries pass the checks, and both commands succeed.
    [main] returns, the exit status is 0, [main] prints nothing, the output
    file is closed by [main] and not by the deferred call, and the files
    are what [go fmt] and then [goimports] made of the files with the
    rendered text. *)
Theorem X9_successful_run sp (entries : list ast.Field) :
  searches Args env fs target b f ->
  ast.declared target (ast.visitsFile f) = [ast.StructType sp entries] ->
  forallb (checks b) entries = true ->
  post_ok path (<[path := rendering env f target b entries]> fs) = true ->
  main Args env fs =
  (Returned,
   rendered path (map (fieldStruct_of target b) entries)
     (post_files path (<[path := rendering env f target b entries]> fs)) []) /\
  exit_status (fst (main Args env fs)) = 0.
Proof.
  intros Hrun Hdecl Hall Hpost.
  rewrite (main_search Args env fs target b f Hrun).
  rewrite (search_first_struct env fs target b f sp entries [] Hdecl Hall).
  fold path. unfold rendering in *. unfold post_ok, post_files in *.
  destruct (exec_Run ["go"; "fmt"; path] _) as [fs1 [e1|]]; [discriminate |].
  destruct (exec_Run ["goimports"; "-w"; path] fs1) as [fs2 [e2|]]; [discriminate |].
  split; reflexivity.
Qed.

(** X10. When [go fmt] fails on the rendered file, [main] prints the
    error of the command and the process exits with status 1: [goimports]
    is not run, the files are as [go fmt] left them, and the later
    declarations are not reached. The output file has been closed by
    then. *)
Theorem X10_go_fmt_failure sp (entries : list ast.Field) (rest : list ast.Node)
    (fs1 : gmap string string) (e : string) :
  searches Args env fs target b f ->
  ast.declared target (ast.visitsFile f) = ast.StructType sp entries :: rest ->
  forallb (checks b) entries = true ->
  exec_Run ["go"; "fmt"; path] (<[path := rendering env f target b entries]> fs) =
    (fs1, Some e) ->
  main Args env fs =
  (Exited 1, rendered path (map (fieldStruct_of target b) entries) fs1 [e]).
Proof.
  intros Hrun Hdecl Hall Hfmt.
  rewrite (main_search Args env fs target b f Hrun).
  rewrite (search_first_struct env fs target b f sp entries rest Hdecl Hall).
  fold path. unfold rendering in Hfmt. now rewrite Hfmt.
Qed.

(** X11. When [go fmt] succeeds and [goimports] fails, [main] prints the
    error of [goimports] and the process exits with status 1, with the
    files as [goimports] left them; the later declarations are not
    reached. *)
Theorem X11_goimports_failure sp (entries : list ast.Field) (rest : list ast.Node)
    (fs1 fs2 : gmap string string) (e : string) :
  searches Args env fs target b f ->
  ast.declared target (ast.visitsFile f) = ast.StructType sp entries :: rest ->
  forallb (checks b) entries = true ->
  exec_Run ["go"; "fmt"; path] (<[path := rendering env f target b entries]> fs) =
    (fs1, None) ->
  exec_Run ["goimports"; "-w"; path] fs1 = (fs2, Some e) ->
  main Args env fs =
  (Exited 1, rendered path (map (fieldStruct_of target b) entries) fs2 [e]).
Proof.
  intros Hrun Hdecl Hall Hfmt Himports.
  rewrite (main_search Args env fs target b f Hrun).
  rewrite (search_first_struct env fs target b f sp entries rest Hdecl Hall).
  fold path. unfold rendering in Hfmt. now rewrite Hfmt, Himports.
Qed.

End rendering_runs.

Lemma searches_pointer `{Platform} :
  parser_ParseFile Examples.pointer_src = inl Examples.pointer ->
  os_Create_error "types_opts.go" = None ->
  searches (Examples.Args "Opts") Examples.env
    (Examples.files_with Examples.pointer_src) "Opts" Examples.pointer_src
    Examples.pointer.
Proof.
  intros Hparse Hcreate. split; [| exact Hcreate].
  split; [reflexivity |]. split; [| exact Hparse].
  unfold Examples.files_with. apply lookup_insert_eq.
Qed.

Lemma X9_successful_run_witness :
  searches (H:=Examples.platform) (Examples.Args "Opts") Examples.env
    (Examples.files_with Examples.pointer_src) "Opts" Examples.pointer_src
    Examples.pointer /\
  forallb (checks Examples.pointer_src) [Examples.pointer_P; Examples.pointer_V] = true /\
  exit_status (fst (Examples.run Examples.pointer_src)) = 0.
Proof.
  assert (Hrun := searches_pointer (H:=Examples.platform) eq_refl eq_refl).
  split; [exact Hrun |]. split; [reflexivity |].
  exact (proj2 (X9_successful_run (H:=Examples.platform) _ _ _ _ _ _
                  {| ast.Pos := 22; ast.End_ := 71 |}
                  [Examples.pointer_P; Examples.pointer_V]
                  Hrun eq_refl eq_refl eq_refl)).
Defined.

Lemma X10_go_fmt_failure_witness :
  searches (H:=Failing.go_fmt) (Examples.Args "Opts") Examples.env
    (Examples.files_with Examples.pointer_src) "Opts" Examples.pointer_src
    Examples.pointer /\
  main (H:=Failing.go_fmt) (Examples.Args "Opts") Examples.env
    (Examples.files_with Examples.pointer_src) =
  (Exited 1,
   rendered "types_opts.go"
     (map (fieldStruct_of (H:=Examples.tables) "Opts" Examples.pointer_src)
        [Examples.pointer_P; Examples.pointer_V])
     (<["types_opts.go" :=
          rendering (H:=Failing.go_fmt) Examples.env Examples.pointer "Opts"
            Examples.pointer_src [Examples.pointer_P; Examples.pointer_V]]>
        (Examples.files_with Examples.pointer_src))
     [Failing.fmt_error]).
Proof.
  assert (Hrun := searches_pointer (H:=Failing.go_fmt) eq_refl eq_refl).
  split; [exact Hrun |].
  exact (X10_go_fmt_failure (H:=Failing.go_fmt) _ _ _ _ _ _
           {| ast.Pos := 22; ast.End_ := 71 |}
           [Examples.pointer_P; Examples.pointer_V] [] _ _
           Hrun eq_refl eq_refl eq_refl).
Defined.

Lemma X11_goimports_failure_witness :
  searches (H:=Failing.goimports) (Examples.Args "Opts") Examples.env
    (Examples.files_with Examples.pointer_src) "Opts" Examples.pointer_src
    Examples.pointer /\
  main (H:=Failing.goimports) (Examples.Args "Opts") Examples.env
    (Examples.files_with Examples.pointer_src) =
  (Exited 1,
   rendered "types_opts.go"
     (map (fieldStruct_of (H:=Examples.tables) "Opts" Examples.pointer_src)
        [Examples.pointer_P; Examples.pointer_V])
     (<["types_opts.go" :=
          rendering (H:=Failing.goimports) Examples.env Examples.pointer "Opts"
            Examples.pointer_src [Examples.pointer_P; Examples.pointer_V]]>
        (Examples.files_with Examples.pointer_src))
     [Failing.imports_error]).
Proof.
  assert (Hrun := searches_pointer (H:=Failing.goimports) eq_refl eq_refl).
  split; [exact Hrun |].
  exact (X11_goimports_failure (H:=Failing.goimports) _ _ _ _ _ _
           {| ast.Pos := 22; ast.End_ := 71 |}
           [Examples.pointer_P; Examples.pointer_V] [] _ _ _
           Hrun eq_refl eq_refl eq_refl eq_refl).
Defined.

(** ** Every run *)

Section every_run.
Context `{Platform}.
Variables (target b : string) (imports : list string) (pkg : string).

Let G := generate target b imports pkg body_nodes.

(** What one generation does to the state, once [out] is created: it keeps
    [out]; if it returns, [out] is closed and nothing was printed; if it
    panics, nothing was printed or closed; if it exits, the status is 1 and
    one line was printed. *)
Lemma generate_step (t : ast.Node) (s : State) (path : string) :
  out s = Some path ->
  closed s = out_closed s ->
  exists r s',
    G t s = (r, s') /\ out s' = Some path /\
    closed s' = out_closed s' /\
    match r with
    | Val _ => stdout s' = stdout s
    | Stop (Panic _) => stdout s' = stdout s
    | Stop (Exit code) =>
      code = 1 /\ length (stdout s') = S (length (stdout s))
    end.
Proof.
  intros Hout Hinv.
  assert (Hnot : forall t', (forall sp entries, t' <> ast.StructType sp entries) ->
            exists r s', G t' s = (r, s') /\ out s' = Some path /\
              closed s' = out_closed s' /\
              match r with
              | Val _ => stdout s' = stdout s
              | Stop (Panic _) => stdout s' = stdout s
              | Stop (Exit code) =>
                code = 1 /\ length (stdout s') = S (length (stdout s))
              end).
  { intros t' Ht'. eexists _, s. split.
    - unfold G. apply generate_not_struct. exact Ht'.
    - now repeat split. }
  destruct t as [| | | |sp entries| |]; try (apply Hnot; discriminate).
  clear Hnot.
  destruct (forallb (checks b) entries) eqn:Hall.
  - destruct (out_closed s) eqn:Hclosed.
    + eexists _, _. split.
      * unfold G. now apply generate_closed_struct.
      * destruct s as [fs lines o oc c F0]. cbn in *.
        split; [exact Hout |]. split; [congruence |].
        split; [reflexivity |]. rewrite length_app. cbn. lia.
    + unfold G.
      rewrite (generate_open target b imports pkg sp entries s path Hout Hclosed Hall).
      cbv zeta.
      destruct (exec_Run ["go"; "fmt"; path] _) as [fs1 [e1|]].
      * eexists _, _. split; [reflexivity |]. cbn.
        repeat split. rewrite length_app. cbn. lia.
      * destruct (exec_Run ["goimports"; "-w"; path] fs1) as [fs2 [e2|]].
        -- eexists _, _. split; [reflexivity |]. cbn.
           repeat split. rewrite length_app. cbn. lia.
        -- eexists _, _. split; [reflexivity |]. cbn. now repeat split.
  - destruct (forallb_first_false _ _ Hall) as (pre & e & post & -> & Hpre & He).
    eexists _, _. split.
    + unfold G, generate. unfold bind at 1.
      now rewrite (for_range_field_step_stops target b pre e post s Hpre He).
    + destruct s as [fs lines o oc c F0]. cbn in *. now repeat split.
Qed.

(** The same for the generations of a search. *)
Lemma search_steps (ts : list ast.Node) (s : State) (path : string) :
  out s = Some path ->
  closed s = out_closed s ->
  exists r s',
    for_range ts (fun t => _ <- G t;; ret tt) s = (r, s') /\
    out s' = Some path /\
    closed s' = out_closed s' /\
    match r with
    | Val _ => stdout s' = stdout s
    | Stop (Panic _) => stdout s' = stdout s
    | Stop (Exit code) =>
      code = 1 /\ length (stdout s') = S (length (stdout s))
    end.
Proof.
  revert s. induction ts as [|t ts IH]; intros s Hout Hinv.
  - exists (Val tt), s. now repeat split.
  - change (for_range (t :: ts) (fun t => _ <- G t;; ret tt) s) with
      (((_ <- G t;; ret tt);; for_range ts (fun t => _ <- G t;; ret tt)) s).
    destruct (generate_step t s path Hout Hinv) as (r & s1 & HG & Hout1 & Hinv1 & Hr).
    unfold bind at 1. unfold bind at 1. rewrite HG.
    destruct r as [d|[code|msg]].
    + unfold ret at 1.
      destruct (IH s1 Hout1 Hinv1) as (r2 & s2 & -> & Hout2 & Hinv2 & Hr2).
      exists r2, s2. split; [reflexivity |]. split; [exact Hout2 |].
      split; [exact Hinv2 |]. rewrite <- Hr. exact Hr2.
    + exists (Stop (Exit code)), s1. now repeat split.
    + exists (Stop (Panic msg)), s1. now repeat split.
Qed.

End every_run.

(** [main], up to the deferred call, on any input: the variable [closed]
    tells whether [out] is closed, a file is closed only if it was created,
    and a line is printed exactly on the way to [os.Exit], with status
    1. *)
Lemma main_body_cases `{Platform} (Args : list string) (env fs : gmap string string) :
  exists (r : Res unit) (s : State),
    main_body Args env (initial fs) = (r, s) /\
    closed s = out_closed s /\
    (out s = None -> out_closed s = false) /\
    match r with
    | Val _ => stdout s = []
    | Stop (Panic _) => stdout s = []
    | Stop (Exit code) => code = 1 /\ length (stdout s) = 1%nat
    end.
Proof.
  assert (Hearly : forall msg,
            main_body Args env (initial fs) = (Stop (Panic msg), initial fs) ->
            exists (r : Res unit) (s : State),
              main_body Args env (initial fs) = (r, s) /\
              closed s = out_closed s /\
              (out s = None -> out_closed s = false) /\
              match r with
              | Val _ => stdout s = []
              | Stop (Panic _) => stdout s = []
              | Stop (Exit code) => code = 1 /\ length (stdout s) = 1%nat
              end).
  { intros msg ->. eexists _, _. split; [reflexivity |]. now repeat split. }
  destruct Args as [|a0 [|target more]];
    [eapply Hearly; reflexivity | eapply Hearly; reflexivity |].
  destruct (fs !! os_Getenv env "GOFILE") as [b|] eqn:Hread.
  2:{ eapply Hearly. unfold main_body. unfold bind at 1.
      unfold ioutil_ReadFile, bind, get. unfold initial at 1. cbn [files].
      rewrite Hread. reflexivity. }
  destruct (parser_ParseFile b) as [f|e] eqn:Hparse.
  2:{ eapply Hearly. unfold main_body. unfold bind at 1.
      unfold ioutil_ReadFile, bind, get. unfold initial at 1. cbn [files].
      rewrite Hread. unfold ret at 1. rewrite Hparse. reflexivity. }
  destruct (os_Create_error (out_path (os_Getenv env "GOFILE") target))
    as [e|] eqn:Hcreate.
  { eapply Hearly. unfold main_body. unfold bind at 1.
    unfold ioutil_ReadFile, bind, get. unfold initial at 1. cbn [files].
    rewrite Hread. unfold ret at 1. rewrite Hparse. unfold os_Create.
    rewrite Hcreate. reflexivity. }
  clear Hearly.
  assert (Hrun : searches (a0 :: target :: more) env fs target b f)
    by (repeat split; assumption).
  destruct (search_steps target b (imports_of f) (os_Getenv env "GOPACKAGE")
              (ast.declared target (ast.visitsFile f))
              (searching (out_path (os_Getenv env "GOFILE") target) fs)
              (out_path (os_Getenv env "GOFILE") target) eq_refl eq_refl)
    as (r & s & Hsearch & Hout & Hinv & Hr).
  exists r, s. split; [| split; [exact Hinv | split]].
  - now rewrite (main_body_search _ env fs target b f Hrun).
  - rewrite Hout. discriminate.
  - destruct r as [d|[code|msg]]; exact Hr.
Qed.

(** X12. Whatever its arguments, its environment and the files, a run
    that exits does so with status 1, and [main] has printed one line by
    then, the error it stops on; in a run that returns or panics [main] has
    printed nothing. So the exit status is 1 exactly when [main] printed a
    line. The lines are those of [fmt.Println]: what the two commands
    write themselves is not part of [stdout]. *)
Theorem X12_exit_prints_one_line `{Platform} (Args : list string)
    (env fs : gmap string string) :
  reported (main Args env fs) /\
  (exit_status (fst (main Args env fs)) = 1 <->
   length (stdout (snd (main Args env fs))) = 1%nat) /\
  (exit_status (fst (main Args env fs)) <> 1 <->
   stdout (snd (main Args env fs)) = []).
Proof.
  unfold reported, main.
  destruct (main_body_cases Args env fs) as (r & s & -> & _ & _ & Hr).
  destruct r as [d|[code|msg]]; cbn [fst snd exit_status];
    rewrite ?stdout_deferred.
  - rewrite Hr. cbn. repeat split; try discriminate; intros; try reflexivity; lia.
  - destruct Hr as [-> Hlen]. rewrite Hlen.
    repeat split; try reflexivity; try tauto.
    intros Hnil. rewrite Hnil in Hlen. discriminate.
  - rewrite Hr. cbn. repeat split; try discriminate; intros; try reflexivity; lia.
Qed.

(** X13. Whatever its arguments, its environment and the files, a run
    that returns or panics leaves the output file closed if it created it:
    by [main] itself, or else by the deferred call, which a run that exits
    skips. When [main] ends, the variable [closed] tells whether the file
    is closed, so the deferred call closes the file exactly when it is
    still open, and never a second time. *)
Theorem X13_output_file_released `{Platform} (Args : list string)
    (env fs : gmap string string) :
  released (main Args env fs) /\
  closed (snd (main_body Args env (initial fs))) =
  out_closed (snd (main_body Args env (initial fs))).
Proof.
  unfold released, main.
  destruct (main_body_cases Args env fs) as (r & s & -> & Hinv & Hnone & _).
  split; [| exact Hinv].
  assert (Hdef : (closed (deferred s) = true -> out_closed (deferred s) = true) /\
                 match out (deferred s) with
                 | Some _ => out_closed (deferred s) = true
                 | None => out_closed (deferred s) = false
                 end).
  { unfold deferred. destruct (out s) as [path|] eqn:Hout.
    - destruct (closed s) eqn:Hc.
      + rewrite Hout, <- Hinv. now split.
      + destruct s; cbn in *. rewrite Hout. now split.
    - rewrite Hout, (Hnone eq_refl). rewrite Hinv, (Hnone eq_refl). now split. }
  destruct r as [d|[code|msg]]; cbn [fst snd].
  - exact Hdef.
  - split; [now rewrite Hinv | exact Logic.I].
  - exact Hdef.
Qed.

(** ** The runs that return *)

Section returning_runs.
Context `{Platform}.
Variables (Args : list string) (env fs : gmap string string)
          (target b : string) (f : ast.File).

Let path := out_path (os_Getenv env "GOFILE") target.
Let G := generate target b (imports_of f) (os_Getenv env "GOPACKAGE") body_nodes.

(** X14. A run that has created its output file returns, with exit
    status 0, in two cases and in no other: no declaration has the wanted
    name, or exactly one has, it is a struct type whose entries pass the
    checks, and both commands succeed on the rendered file. A second
    declaration of the name, a declaration that is not a struct type, an
    entry that fails a check or a command that fails all end the run with
    another status. *)
Theorem X14_returns_exactly_when :
  searches Args env fs target b f ->
  fst (main Args env fs) = Returned <->
  ast.declared target (ast.visitsFile f) = [] \/
  exists sp entries,
    ast.declared target (ast.visitsFile f) = [ast.StructType sp entries] /\
    forallb (checks b) entries = true /\
    post_ok path (<[path := rendering env f target b entries]> fs) = true.
Proof.
  intros Hrun. rewrite (main_search Args env fs target b f Hrun).
  destruct (ast.declared target (ast.visitsFile f)) as [|t rest] eqn:Hdecl.
  { split; [now left | reflexivity]. }
  destruct (stops_before_rendering b t) eqn:Hstop.
  - (* the first declaration cannot be rendered *)
    change (for_range (t :: rest) ?g ?s) with
      (((_ <- G t;; ret tt);; for_range rest g) s).
    unfold bind.
    destruct (generate_stops_before_rendering target b (imports_of f)
                (os_Getenv env "GOPACKAGE") t (searching path fs) Hstop)
      as (msg & s' & HG & _).
    unfold G, path in *. rewrite HG. cbn [fst].
    split; [discriminate |].
    intros [Hnil | (sp & entries & [= -> ->] & Hall & _)]; [discriminate |].
    cbn [stops_before_rendering] in Hstop. now rewrite Hall in Hstop.
  - destruct t as [| | | |sp entries| |]; try discriminate.
    cbn [stops_before_rendering] in Hstop. apply negb_false_iff in Hstop.
    assert (Hone : forall sp' entries',
              ast.StructType sp entries :: rest = [ast.StructType sp' entries'] ->
              sp' = sp /\ entries' = entries /\ rest = []).
    { intros sp' entries' Heq. injection Heq as -> -> ->. now repeat split. }
    assert (Hsearch := search_first_struct env fs target b f sp entries rest Hdecl Hstop).
    cbv zeta in Hsearch. rewrite Hdecl in Hsearch. fold path in Hsearch.
    unfold G, path in *. rewrite Hsearch. clear Hsearch.
    unfold post_ok, rendering.
    destruct (exec_Run ["go"; "fmt"; _] _) as [fs1 [e1|]] eqn:Hfmt.
    { cbn [fst]. split; [discriminate |].
      intros [Hnil | (sp' & entries' & Heq & _ & Hpost)]; [discriminate |].
      destruct (Hone _ _ Heq) as (-> & -> & ->).
      rewrite Hfmt in Hpost. discriminate. }
    destruct (exec_Run ["goimports"; "-w"; _] fs1) as [fs2 [e2|]] eqn:Himports.
    { cbn [fst]. split; [discriminate |].
      intros [Hnil | (sp' & entries' & Heq & _ & Hpost)]; [discriminate |].
      destruct (Hone _ _ Heq) as (-> & -> & ->).
      rewrite Hfmt, Himports in Hpost. discriminate. }
    destruct (for_range_generate_closed target b (imports_of f)
                (os_Getenv env "GOPACKAGE") rest
                (rendered (out_path (os_Getenv env "GOFILE") target)
                   (map (fieldStruct_of target b) entries) fs2 []) eq_refl)
      as (r & s' & Hrest & _ & [(Hnil & -> & ->) | (Hne & Hr)]).
    + rewrite Hrest. cbn [fst]. split; [intros _ | reflexivity].
      right. exists sp, entries. subst rest. split; [reflexivity |].
      split; [exact Hstop |]. rewrite Hfmt, Himports. reflexivity.
    + rewrite Hrest. split.
      * destruct Hr as [-> | [msg ->]]; discriminate.
      * intros [Hnil | (sp' & entries' & Heq & _)]; [discriminate |].
        destruct (Hone _ _ Heq) as (_ & _ & Hrest'). now destruct Hne.
Qed.

End returning_runs.

Lemma X14_returns_exactly_when_witness :
  searches (H:=Examples.platform) (Examples.Args "Opts") Examples.env
    (Examples.files_with Examples.twice_src) "Opts" Examples.twice_src
    Examples.twice /\
  length (ast.declared "Opts" (ast.visitsFile Examples.twice)) = 2%nat /\
  fst (Examples.run Examples.twice_src) <> Returned.
Proof.
  assert (Hrun := searches_example Examples.twice_src Examples.twice eq_refl).
  split; [exact Hrun |]. split; [reflexivity |].
  intros Hret.
  destruct (proj1 (X14_returns_exactly_when (H:=Examples.platform)
                     _ _ _ _ _ _ Hrun) Hret)
    as [Hnil | (sp & entries & Hone & _)]; discriminate.
Defined.
